(** * js-libp2p-webrtc: SDP synthesis, fingerprints, Noise prologue

    A shallow embedding of [sdp.js] and [transport.js] (the compiled
    sources of the WebRTC transport) together with the properties of the
    fingerprint derivation, the SDP synthesizer and mutator, the address
    filter and the Noise prologue builder.

    JavaScript strings are modelled as [string] (all texts handled here are
    ASCII: SDP, hexadecimal digests, multibase text), [Uint8Array] as
    [list byte], thrown exceptions as the [Throw] branch of [result]. *)

From Stdlib Require Import String Ascii List ZArith NArith Bool Lia.
From Stdlib Require Import Strings.Byte.
From Stdlib Require Import DecimalString.
Import ListNotations.

Local Open Scope list_scope.
Local Open Scope string_scope.

Definition bytes : Type := list byte.

(** ** Errors *)

(** Modelled from the spec: [error.js] is not among the sources; the error
    kinds are those of section 7 of the specification, named after the
    factory functions that [sdp.js] and [transport.js] import from it.
    [ForeignError] stands for whatever an external library or the runtime
    throws ([TypeError], [SyntaxError], [RangeError]). *)
Inductive WebRTCError : Type :=
| InappropriateMultiaddrError (message : string)
| InvalidArgumentError (message : string)
| UnsupportedHashAlgorithmError (algo : string)
| UnimplementedError (methodName : string)
| ForeignError (message : string).

Definition inappropriateMultiaddr (msg : string) : WebRTCError :=
  InappropriateMultiaddrError msg.
Definition invalidArgument (msg : string) : WebRTCError :=
  InvalidArgumentError msg.
Definition unsupportedHashAlgorithm (algo : string) : WebRTCError :=
  UnsupportedHashAlgorithmError algo.
Definition unimplemented (methodName : string) : WebRTCError :=
  UnimplementedError methodName.

(** A computation that returns a value or throws. *)
Inductive result (A : Type) : Type :=
| Ok (a : A)
| Throw (e : WebRTCError).
Arguments Ok {A} a.
Arguments Throw {A} e.

Definition bind {A B : Type} (r : result A) (k : A -> result B) : result B :=
  match r with
  | Ok a => k a
  | Throw e => Throw e
  end.

Notation "x <- r ;; k" := (bind r (fun x => k))
  (at level 61, r at next level, right associativity).
Notation "' p <- r ;; k" := (bind r (fun x => let p := x in k))
  (at level 61, p pattern, r at next level, right associativity).

(** ** The JavaScript string operations used by the sources *)
Module JS.

Definition LF : ascii := "010"%char.
Definition CR : ascii := "013"%char.
Definition nl : string := String LF "".

Fixpoint map (f : ascii -> ascii) (s : string) : string :=
  match s with
  | "" => ""
  | String c s' => String (f c) (map f s')
  end.

Definition toUpperCase_char (c : ascii) : ascii :=
  let n := N_of_ascii c in
  if ((97 <=? n) && (n <=? 122))%N then ascii_of_N (n - 32) else c.

(** [s.toUpperCase()] on ASCII text. *)
Definition toUpperCase (s : string) : string := map toUpperCase_char s.

(** What is left of [s] after the prefix [p], when [s] starts with it. *)
Fixpoint strip_prefix (p s : string) : option string :=
  match p with
  | "" => Some s
  | String a p' =>
      match s with
      | "" => None
      | String b s' => if Ascii.eqb a b then strip_prefix p' s' else None
      end
  end.

(** [s.startsWith(p)]. *)
Definition startsWith (s p : string) : bool :=
  match strip_prefix p s with
  | Some _ => true
  | None => false
  end.

(** [s.replaceAll(c, '')] for a one-character search string. *)
Fixpoint removeAll (c : ascii) (s : string) : string :=
  match s with
  | "" => ""
  | String d s' =>
      if Ascii.eqb d c then removeAll c s' else String d (removeAll c s')
  end.

Definition hex_digit (n : N) : ascii :=
  match n with
  | 0 => "0" | 1 => "1" | 2 => "2" | 3 => "3" | 4 => "4" | 5 => "5"
  | 6 => "6" | 7 => "7" | 8 => "8" | 9 => "9" | 10 => "a" | 11 => "b"
  | 12 => "c" | 13 => "d" | 14 => "e" | _ => "f"
  end%N%char.

(** [byte.toString(16)] for an element of a [Uint8Array] (0..255). *)
Definition toString16 (b : byte) : string :=
  let n := Byte.to_N b in
  if (n <? 16)%N then String (hex_digit n) ""
  else String (hex_digit (n / 16)) (String (hex_digit (n mod 16)) "").

Fixpoint repeat (c : ascii) (n : nat) : string :=
  match n with
  | O => ""
  | S n' => String c (repeat c n')
  end.

(** [s.padStart(n, c)] for a one-character pad string. *)
Definition padStart (n : nat) (c : ascii) (s : string) : string :=
  repeat c (n - String.length s) ++ s.

(** [.] of a regular expression matches everything but line terminators. *)
Definition is_line_terminator (c : ascii) : bool :=
  Ascii.eqb c LF || Ascii.eqb c CR.

(** The successive matches of [/.{1,2}/g] in [s]. *)
Fixpoint matches_dot_1_2 (s : string) : list string :=
  match s with
  | "" => []
  | String c s' =>
      if is_line_terminator c then matches_dot_1_2 s'
      else match s' with
           | "" => [String c ""]
           | String d s'' =>
               if is_line_terminator d then String c "" :: matches_dot_1_2 s''
               else String c (String d "") :: matches_dot_1_2 s''
           end
  end.

(** [s.match(/.{1,2}/g)]: [null] when there is no match. *)
Definition match_dot_1_2 (s : string) : option (list string) :=
  match matches_dot_1_2 s with
  | [] => None
  | ms => Some ms
  end.

(** [ls.join(sep)]. *)
Definition join (sep : string) (ls : list string) : string :=
  String.concat sep ls.

(** *** [String.prototype.replace] with the regular expressions of [munge]

    Both expressions have the shape [/\n<lit>[^\n]*\n/] with a literal
    [lit] free of newlines.  [[^\n]*] is greedy, but the character after
    it must be a newline, so a match at a position runs up to the first
    newline after the literal. *)

(** Splits at the first newline: the text before it and the text after. *)
Fixpoint until_newline (s : string) : option (string * string) :=
  match s with
  | "" => None
  | String c s' =>
      if Ascii.eqb c LF then Some ("", s')
      else match until_newline s' with
           | Some (l, r) => Some (String c l, r)
           | None => None
           end
  end.

(** A match of [/\n<lit>[^\n]*\n/] anchored at the head of [s]: the
    matched text and what follows it. *)
Definition match_here (lit s : string) : option (string * string) :=
  match strip_prefix (nl ++ lit) s with
  | Some t =>
      match until_newline t with
      | Some (mid, rest) => Some (nl ++ lit ++ mid ++ nl, rest)
      | None => None
      end
  | None => None
  end.

(** The leftmost match: the text before it, the match, the text after. *)
Fixpoint regexp_exec (lit s : string) : option (string * string * string) :=
  match match_here lit s with
  | Some (m, rest) => Some ("", m, rest)
  | None =>
      match s with
      | "" => None
      | String c s' =>
          match regexp_exec lit s' with
          | Some (pre, m, rest) => Some (String c pre, m, rest)
          | None => None
          end
      end
  end.

(** [GetSubstitution] for an expression without capture groups: in the
    replacement text [$$] is a dollar sign, [$&] the match, [$`] the text
    before the match and [$'] the text after it; any other [$] stands for
    itself. *)
Fixpoint GetSubstitution (matched pre post template : string) : string :=
  match template with
  | "" => ""
  | String c t =>
      if Ascii.eqb c "$" then
        match t with
        | String d t' =>
            if Ascii.eqb d "$" then
              String "$" (GetSubstitution matched pre post t')
            else if Ascii.eqb d "&" then
              matched ++ GetSubstitution matched pre post t'
            else if Ascii.eqb d "`" then
              pre ++ GetSubstitution matched pre post t'
            else if Ascii.eqb d "'" then
              post ++ GetSubstitution matched pre post t'
            else String c (GetSubstitution matched pre post t)
        | "" => String c ""
        end
      else String c (GetSubstitution matched pre post t)
  end.

(** [s.replace(/\n<lit>[^\n]*\n/, replacement)]: only the first match is
    replaced (the expression has no [g] flag). *)
Definition replace (lit replacement s : string) : string :=
  match regexp_exec lit s with
  | None => s
  | Some (pre, m, post) =>
      pre ++ GetSubstitution m pre post replacement ++ post
  end.

(** [`${n}`] for a non-negative integer. *)
Definition Number_toString (n : N) : string :=
  NilEmpty.string_of_uint (N.to_uint n).

End JS.

(** ** External interfaces *)

(** What [@multiformats/multiaddr] lets the sources observe of an address:
    the results of the accessor methods they call.  Address text is parsed
    by the library; the sources only ever see these views. *)
Record MultiaddrOptions : Type := {
  host : string;
  port : N
}.

Record Multiaddr : Type := {
  protoNames : list string;
  protoCodes : list Z;
  (** [[code]] for a component without value, [[code, value]] otherwise *)
  stringTuples : list (Z * option string);
  (** [null] when the address names no peer *)
  getPeerId : option string;
  toOptions : result MultiaddrOptions;
  toString : string
}.

(** The result of [multihashes.decode].  The name is the one the table of
    hash functions gives for the code. *)
Record Multihash : Type := {
  code : Z;
  name : string;
  length : Z;
  digest : bytes
}.

(** The functions of [multiformats], [multihashes] and [uint8arrays] that
    the sources call.  They are parameters of the development: every
    theorem holds for any implementation of them, and
    [reference_codecs] below is one. *)
Class Multiformats : Type := {
  (** [mbdecoder.decode]: the composition of all multibase decoders *)
  mbdecoder_decode : string -> result bytes;
  (** [multihashes.decode] *)
  multihashes_decode : bytes -> result Multihash;
  (** [multihashes.encode(digest, code)] *)
  multihashes_encode : bytes -> Z -> result bytes;
  (** [uint8arrayFromString(s, 'hex')] *)
  uint8arrayFromString_hex : string -> result bytes
}.

(** [multihashes.names['sha2-256']], from the multicodec table. *)
Definition multihashes_names_sha2_256 : Z := 0x12.

(** [uint8arrayFromString(s)] (UTF-8) on ASCII text. *)
Definition uint8arrayFromString (s : string) : bytes := list_byte_of_string s.

(** ** sdp.js *)
Module Sdp.
Section WithLibraries.
Context {libs : Multiformats}.

Definition CERTHASH_CODE : Z := 466.

(** The warning that [ipv] logs before it falls back to IP6 is not
    modelled. *)
Definition ipv (ma : Multiaddr) : string :=
  match find (fun proto => JS.startsWith proto "ip") (protoNames ma) with
  | Some proto => JS.toUpperCase proto
  | None => "IP6"
  end.

Definition ip (ma : Multiaddr) : result string :=
  o <- toOptions ma ;; Ok (host o).

Definition port (ma : Multiaddr) : result N :=
  o <- toOptions ma ;; Ok (port o).

Definition certhash (ma : Multiaddr) : result string :=
  let tups := stringTuples ma in
  let certhash_value :=
    match List.map snd
            (filter (fun tup => Z.eqb (fst tup) CERTHASH_CODE) tups) with
    | v :: _ => v
    | [] => None
    end in
  match certhash_value with
  | Some (String c v) => Ok (String c v)
  | Some "" | None =>
      (* [undefined] and the empty string are falsy *)
      Throw (inappropriateMultiaddr
               ("Couldn't find a certhash component of multiaddr:"
                ++ toString ma))
  end.

Definition certhashToFingerprint (ma : Multiaddr) : result (string * string) :=
  certhash_value <- certhash ma ;;
  mbdecoded <- mbdecoder_decode certhash_value ;;
  mhdecoded <- multihashes_decode mbdecoded ;;
  prefix <-
    (if name mhdecoded =? "md5" then Ok "md5"
     else if name mhdecoded =? "sha2-256" then Ok "sha-256"
     else if name mhdecoded =? "sha2-512" then Ok "sha-512"
     else Throw (unsupportedHashAlgorithm (name mhdecoded))) ;;
  let fp :=
    fold_left
      (fun str byte => str ++ JS.padStart 2 "0" (JS.toString16 byte))
      (digest mhdecoded) "" in
  (* [fp.match(...)] is [null] for an empty [fp]; [null.join] throws *)
  pairs <-
    match JS.match_dot_1_2 fp with
    | Some ms => Ok ms
    | None => Throw (ForeignError "TypeError")
    end ;;
  let fpSdp := JS.join ":" pairs in
  Ok (JS.toUpperCase prefix ++ " " ++ JS.toUpperCase fpSdp, fp).

Definition ma2sdp (ma : Multiaddr) (ufrag : string) : result string :=
  IP <- ip ma ;;
  let IPVERSION := ipv ma in
  PORT <- port ma ;;
  '(CERTFP, _) <- certhashToFingerprint ma ;;
  Ok ("v=0" ++ JS.nl
      ++ "o=- 0 0 IN " ++ IPVERSION ++ " " ++ IP ++ JS.nl
      ++ "s=-" ++ JS.nl
      ++ "c=IN " ++ IPVERSION ++ " " ++ IP ++ JS.nl
      ++ "t=0 0" ++ JS.nl
      ++ "a=ice-lite" ++ JS.nl
      ++ "m=application " ++ JS.Number_toString PORT
      ++ " UDP/DTLS/SCTP webrtc-datachannel" ++ JS.nl
      ++ "a=mid:0" ++ JS.nl
      ++ "a=setup:passive" ++ JS.nl
      ++ "a=ice-ufrag:" ++ ufrag ++ JS.nl
      ++ "a=ice-pwd:" ++ ufrag ++ JS.nl
      ++ "a=fingerprint:" ++ CERTFP ++ JS.nl
      ++ "a=sctp-port:5000" ++ JS.nl
      ++ "a=max-message-size:100000" ++ JS.nl
      ++ "a=candidate:1467250027 1 UDP 1467250027 " ++ IP ++ " "
      ++ JS.Number_toString PORT ++ " typ host" ++ String JS.CR JS.nl).

Inductive RTCSdpType : Type := answer | offer | pranswer | rollback.

Record RTCSessionDescriptionInit : Type := {
  type : RTCSdpType;
  (** [undefined] when the description has no body *)
  sdp : option string
}.

Definition fromMultiAddr (ma : Multiaddr) (ufrag : string)
  : result RTCSessionDescriptionInit :=
  body <- ma2sdp ma ufrag ;;
  Ok {| type := answer; sdp := Some body |}.

(** [munge] assigns to [desc.sdp] and returns [desc] itself: the first
    component is the object the caller passed, as it is after the call;
    the second is what the call returns or throws. *)
Definition munge (desc : RTCSessionDescriptionInit) (ufrag : string)
  : RTCSessionDescriptionInit * result RTCSessionDescriptionInit :=
  match sdp desc with
  | Some (String c body') =>
      let body := String c body' in
      let desc' :=
        {| type := type desc;
           sdp := Some
             (JS.replace "a=ice-pwd:" (JS.nl ++ "a=ice-pwd:" ++ ufrag ++ JS.nl)
                (JS.replace "a=ice-ufrag:"
                   (JS.nl ++ "a=ice-ufrag:" ++ ufrag ++ JS.nl) body)) |} in
      (desc', Ok desc')
  | Some "" | None =>
      (* [undefined] and the empty string are falsy *)
      (desc, Throw (invalidArgument "Can't munge a missing SDP"))
  end.

End WithLibraries.
End Sdp.

(** ** transport.js *)
Module Transport.
Section WithLibraries.
Context {libs : Multiformats}.

Record RTCDtlsFingerprint : Type := {
  algorithm : option string;
  value : option string
}.

Record RTCCertificate : Type := {
  getFingerprints : list RTCDtlsFingerprint
}.

Record RTCConfiguration : Type := {
  certificates : option (list RTCCertificate)
}.

Record RTCPeerConnection : Type := {
  getConfiguration : RTCConfiguration
}.

Definition WEBRTC_CODE : Z := 280.
Definition CERTHASH_CODE : Z := 466.

(** [codes.includes(c)] *)
Definition includes (codes : list Z) (c : Z) : bool :=
  existsb (Z.eqb c) codes.

Definition validMa (ma : Multiaddr) : bool :=
  let codes := protoCodes ma in
  includes codes WEBRTC_CODE && includes codes CERTHASH_CODE
  && match getPeerId ma with Some _ => true | None => false end.

Definition filter (multiaddrs : list Multiaddr) : list Multiaddr :=
  List.filter validMa multiaddrs.

Definition generateNoisePrologue (pc : RTCPeerConnection) (ma : Multiaddr)
  : result bytes :=
  match certificates (getConfiguration pc) with
  | Some [] => Throw (invalidArgument "no local certificate")
  | certs =>
      let localCert :=
        match certs with
        | Some (c :: _) => Some c
        | _ => None
        end in
      match localCert with
      | None => Throw (invalidArgument "no fingerprint on local certificate")
      | Some localCert =>
          match getFingerprints localCert with
          | [] => Throw (invalidArgument "no fingerprint on local certificate")
          | localFingerprint :: _ =>
              localFpString <-
                match value localFingerprint with
                | Some v => Ok (JS.removeAll ":" v)
                | None => Throw (ForeignError "TypeError")
                end ;;
              localFpArray <- uint8arrayFromString_hex localFpString ;;
              if match algorithm localFingerprint with
                 | Some a => negb (a =? "sha-256")
                 | None => true
                 end
              then
                Throw (unsupportedHashAlgorithm
                         (* [algorithm || 'none'] *)
                         match algorithm localFingerprint with
                         | Some (String c a) => String c a
                         | Some "" | None => "none"
                         end)
              else
                local <- multihashes_encode localFpArray
                           multihashes_names_sha2_256 ;;
                certhash_value <- Sdp.certhash ma ;;
                remote <- mbdecoder_decode certhash_value ;;
                let prefix := uint8arrayFromString "libp2p-webrtc-noise:" in
                Ok (prefix ++ local ++ remote)%list
          end
      end
  end.

End WithLibraries.
End Transport.

(** ** The draft of transport.ts

    The test file still carries an earlier draft of the transport.  Its
    prologue builder ends differently: it orders the two fingerprints with
    [[local, remote].sort()] before it concatenates them.  Without a
    comparison function [Array.prototype.sort] orders the elements by their
    string forms, and the string form of a [Uint8Array] is its elements in
    decimal, joined by commas. *)
Module Draft.

Definition Uint8Array_toString (a : bytes) : string :=
  JS.join "," (List.map (fun b => JS.Number_toString (Byte.to_N b)) a).

(** [[local, remote].sort()]: the sort is stable, so the two change places
    only when the string form of the second is below that of the first. *)
Definition sort (local remote : bytes) : list bytes :=
  if String.ltb (Uint8Array_toString remote) (Uint8Array_toString local)
  then [remote; local]
  else [local; remote].

(** The last three statements of the draft's [generateNoisePrologue]. *)
Definition prologue (local remote : bytes) : bytes :=
  let prefix := uint8arrayFromString "libp2p-webrtc-noise:" in
  let fps := sort local remote in
  (prefix ++ List.concat fps)%list.

End Draft.

(** ** A reference implementation of the external libraries

    One implementation of [Multiformats] and one way to build [Multiaddr]
    observations, following the published formats (RFC 4648 bases with
    their multibase prefixes, unsigned varints, the multihash layout).
    The properties of the sources are proved for every implementation;
    this one evaluates them on concrete addresses and certificates, and
    covers no more than those need: of the bases of the composed decoder
    the RFC 4648 ones (not base58btc, base36 or base10), of the table of
    hash functions the rows of [multihash_names], and addresses that start
    with a host and a port, whose component values are kept as written. *)
Module Reference.

Fixpoint index_of (c : ascii) (alphabet : string) : option N :=
  match alphabet with
  | "" => None
  | String a rest =>
      if Ascii.eqb a c then Some 0%N
      else option_map N.succ (index_of c rest)
  end.

Fixpoint strip_leading_pad (rev_s : list ascii) : list ascii :=
  match rev_s with
  | c :: rest => if Ascii.eqb c "=" then strip_leading_pad rest else rev_s
  | [] => []
  end.

(** Drops the padding characters at the end of the text. *)
Definition strip_padding (s : string) : list ascii :=
  rev (strip_leading_pad (rev (list_ascii_of_string s))).

(** The loop of the RFC 4648 decoder: [bits] pending bits sit in the low
    end of [buffer]; a byte is written as soon as eight are there.  The
    bits above the pending ones never reach the output, so the buffer is
    left unbounded here. *)
Fixpoint rfc4648_loop (alphabet : string) (bitsPerChar : N)
    (cs : list ascii) (bits buffer : N) (out : bytes)
  : result (N * N * bytes) :=
  match cs with
  | [] => Ok (bits, buffer, out)
  | c :: cs' =>
      match index_of c alphabet with
      | None => Throw (ForeignError "SyntaxError: character outside the alphabet")
      | Some v =>
          let buffer := N.lor (N.shiftl buffer bitsPerChar) v in
          let bits := (bits + bitsPerChar)%N in
          if (8 <=? bits)%N then
            let bits := (bits - 8)%N in
            match Byte.of_N (N.land 0xff (N.shiftr buffer bits)) with
            | Some b =>
                rfc4648_loop alphabet bitsPerChar cs' bits buffer
                  (out ++ [b])%list
            | None => Throw (ForeignError "unreachable")
            end
          else rfc4648_loop alphabet bitsPerChar cs' bits buffer out
      end
  end.

Definition rfc4648_decode (alphabet : string) (bitsPerChar : N) (s : string)
  : result bytes :=
  '(bits, buffer, out) <-
    rfc4648_loop alphabet bitsPerChar (strip_padding s) 0 0 [] ;;
  if (bitsPerChar <=? bits)%N
     || negb (N.land 0xff (N.shiftl buffer (8 - bits)) =? 0)%N
  then Throw (ForeignError "SyntaxError: Unexpected end of data")
  else Ok out.

Definition base16_alphabet : string := "0123456789abcdef".
Definition base32_alphabet : string := "abcdefghijklmnopqrstuvwxyz234567".
Definition base64_alphabet : string :=
  "ABCDEFGHIJKLMNOPQRSTUVWXYZabcdefghijklmnopqrstuvwxyz0123456789+/".
Definition base64url_alphabet : string :=
  "ABCDEFGHIJKLMNOPQRSTUVWXYZabcdefghijklmnopqrstuvwxyz0123456789-_".

(** The RFC 4648 bases of the multibase table: prefix character,
    alphabet, bits per character. *)
Definition multibase_table : list (ascii * (string * N)) :=
  [ ("0"%char, ("01", 1)); ("7"%char, ("01234567", 3));
    ("f"%char, (base16_alphabet, 4));
    ("F"%char, (JS.toUpperCase base16_alphabet, 4));
    ("b"%char, (base32_alphabet, 5));
    ("B"%char, (JS.toUpperCase base32_alphabet, 5));
    ("c"%char, (base32_alphabet, 5));
    ("C"%char, (JS.toUpperCase base32_alphabet, 5));
    ("m"%char, (base64_alphabet, 6)); ("M"%char, (base64_alphabet, 6));
    ("u"%char, (base64url_alphabet, 6));
    ("U"%char, (base64url_alphabet, 6)) ]%N.

Fixpoint lookup_base (c : ascii) (table : list (ascii * (string * N)))
  : option (string * N) :=
  match table with
  | [] => None
  | (p, b) :: rest => if Ascii.eqb p c then Some b else lookup_base c rest
  end.

(** The composed decoder picks the base by the first character. *)
Definition mbdecode (s : string) : result bytes :=
  match s with
  | "" => Throw (ForeignError "RangeError: no multibase prefix")
  | String c payload =>
      match lookup_base c multibase_table with
      | Some (alphabet, bitsPerChar) =>
          rfc4648_decode alphabet bitsPerChar payload
      | None => Throw (ForeignError "RangeError: unsupported multibase prefix")
      end
  end.

Definition hex_decode (s : string) : result bytes :=
  rfc4648_decode base16_alphabet 4 s.

(** Unsigned varints: seven bits per byte, least significant group
    first, the high bit set on all bytes but the last. *)
Fixpoint varint_encode_fuel (fuel : nat) (n : N) : list N :=
  match fuel with
  | O => [N.land n 0x7f]
  | S fuel' =>
      if (n <? 128)%N then [n]
      else N.lor (N.land n 0x7f) 0x80 :: varint_encode_fuel fuel' (N.shiftr n 7)
  end.

Definition to_bytes (ns : list N) : bytes :=
  List.map (fun n => match Byte.of_N n with Some b => b | None => x00 end) ns.

Definition varint_encode (n : N) : bytes :=
  to_bytes (varint_encode_fuel (N.to_nat (N.size n)) n).

(** The decoded number and the bytes after it. *)
Fixpoint varint_decode (bs : bytes) (shift : N) : option (N * bytes) :=
  match bs with
  | [] => None
  | b :: rest =>
      let n := Byte.to_N b in
      if (n <? 128)%N then Some (N.shiftl n shift, rest)
      else match varint_decode rest (shift + 7) with
           | Some (hi, rest') =>
               Some (N.shiftl (N.land n 0x7f) shift + hi, rest')%N
           | None => None
           end
  end.

(** Some rows of the multicodec table of hash functions. *)
Definition multihash_names : list (Z * string) :=
  [ (0x00, "identity"); (0x11, "sha1"); (0x12, "sha2-256");
    (0x13, "sha2-512"); (0x14, "sha3-512"); (0x15, "sha3-384");
    (0x16, "sha3-256"); (0x17, "sha3-224"); (0xd5, "md5");
    (0x1e, "blake3") ]%Z.

Fixpoint lookup_name (c : Z) (table : list (Z * string)) : option string :=
  match table with
  | [] => None
  | (k, n) :: rest => if Z.eqb k c then Some n else lookup_name c rest
  end.

Definition mhdecode (bs : bytes) : result Multihash :=
  if (List.length bs <? 2)%nat then
    Throw (ForeignError "multihash too short. must be > 2 bytes.")
  else
    match varint_decode bs 0 with
    | None => Throw (ForeignError "RangeError: Could not decode varint")
    | Some (c, rest) =>
        match lookup_name (Z.of_N c) multihash_names with
        | None => Throw (ForeignError "multihash unknown function code")
        | Some n =>
            match varint_decode rest 0 with
            | None => Throw (ForeignError "RangeError: Could not decode varint")
            | Some (len, d) =>
                if (N.of_nat (List.length d) =? len)%N then
                  Ok {| code := Z.of_N c; name := n;
                        length := Z.of_N len; digest := d |}
                else Throw (ForeignError "multihash length inconsistent")
            end
        end
    end.

Definition mhencode (d : bytes) (c : Z) : result bytes :=
  match lookup_name c multihash_names with
  | None => Throw (ForeignError "Unrecognized function code")
  | Some _ =>
      Ok (varint_encode (Z.to_N c)
          ++ varint_encode (N.of_nat (List.length d)) ++ d)%list
  end.

(** Protocol names of the components used below, from the protocol
    table of the address library. *)
Definition protocol_names : list (Z * string) :=
  [ (4, "ip4"); (6, "tcp"); (41, "ip6"); (53, "dns"); (54, "dns4");
    (55, "dns6"); (273, "udp"); (280, "webrtc"); (421, "p2p");
    (466, "certhash") ]%Z.

Definition protocol_name (c : Z) : string :=
  match lookup_name c protocol_names with
  | Some n => n
  | None => "unknown"
  end.

Fixpoint render (tuples : list (Z * option string)) : string :=
  match tuples with
  | [] => ""
  | (c, Some v) :: rest => "/" ++ protocol_name c ++ "/" ++ v ++ render rest
  | (c, None) :: rest => "/" ++ protocol_name c ++ render rest
  end.

Fixpoint last_peer_id (tuples : list (Z * option string)) (acc : option string)
  : option string :=
  match tuples with
  | [] => acc
  | (c, v) :: rest =>
      if Z.eqb c 421 then last_peer_id rest v else last_peer_id rest acc
  end.

(** The observations of the address with the given components; host and
    port are read from the first two components. *)
Definition multiaddr (tuples : list (Z * option string)) : Multiaddr :=
  {| protoNames := List.map (fun t => protocol_name (fst t)) tuples;
     protoCodes := List.map fst tuples;
     stringTuples := tuples;
     getPeerId := last_peer_id tuples None;
     toOptions :=
       match tuples with
       | (_, Some h) :: (_, Some p) :: _ =>
           match NilEmpty.uint_of_string p with
           | Some n => Ok {| host := h; port := N.of_uint n |}
           | None => Throw (ForeignError "invalid port")
           end
       | _ => Throw (ForeignError "multiaddr must have a valid format")
       end;
     toString := render tuples |}.

End Reference.

#[export] Instance reference_codecs : Multiformats := {|
  mbdecoder_decode := Reference.mbdecode;
  multihashes_decode := Reference.mhdecode;
  multihashes_encode := Reference.mhencode;
  uint8arrayFromString_hex := Reference.hex_decode
|}.

(** ** Vocabulary of the properties *)
Module Spec.

(** The hash algorithms of the allow-list. *)
Inductive HashAlgorithm : Type := MD5 | SHA_256 | SHA_512.

(** The name under which the multihash table lists the algorithm. *)
Definition multihash_name (a : HashAlgorithm) : string :=
  match a with
  | MD5 => "md5"
  | SHA_256 => "sha2-256"
  | SHA_512 => "sha2-512"
  end.

Definition multihash_code (a : HashAlgorithm) : Z :=
  match a with
  | MD5 => 0xd5
  | SHA_256 => 0x12
  | SHA_512 => 0x13
  end.

(** The tag of the algorithm in an SDP fingerprint attribute. *)
Definition tag (a : HashAlgorithm) : string :=
  match a with
  | MD5 => "MD5"
  | SHA_256 => "SHA-256"
  | SHA_512 => "SHA-512"
  end.

(** Digest length in bytes. *)
Definition digest_length (a : HashAlgorithm) : nat :=
  match a with
  | MD5 => 16
  | SHA_256 => 32
  | SHA_512 => 64
  end.

Definition allow_listed (n : string) : bool :=
  (n =? "md5") || (n =? "sha2-256") || (n =? "sha2-512").

Definition HEX_digit (n : N) : ascii :=
  match n with
  | 0 => "0" | 1 => "1" | 2 => "2" | 3 => "3" | 4 => "4" | 5 => "5"
  | 6 => "6" | 7 => "7" | 8 => "8" | 9 => "9" | 10 => "A" | 11 => "B"
  | 12 => "C" | 13 => "D" | 14 => "E" | _ => "F"
  end%N%char.

(** A byte as two uppercase hexadecimal digits. *)
Definition HEX_pair (b : byte) : string :=
  let n := Byte.to_N b in
  String (HEX_digit (n / 16)) (String (HEX_digit (n mod 16)) "").

(** A byte as two lowercase hexadecimal digits. *)
Definition hex_pair (b : byte) : string :=
  let n := Byte.to_N b in
  String (JS.hex_digit (n / 16)) (String (JS.hex_digit (n mod 16)) "").

(** The digest in lowercase hexadecimal, two digits per byte. *)
Fixpoint hex (d : bytes) : string :=
  match d with
  | [] => ""
  | b :: d' => hex_pair b ++ hex d'
  end.

(** The display form of a fingerprint: the tag, a space, the bytes as
    uppercase hexadecimal pairs joined by colons. *)
Definition display (t : string) (d : bytes) : string :=
  t ++ " " ++ String.concat ":" (List.map HEX_pair d).

(** [contains c s]: the character occurs in the text. *)
Fixpoint contains (c : ascii) (s : string) : bool :=
  match s with
  | "" => false
  | String d s' => Ascii.eqb d c || contains c s'
  end.

(** The lines of a text: the segments between newline characters.  A
    text with [n] newlines has [n + 1] segments; the first has no newline
    before it and the last has none after it. *)
Fixpoint lines (s : string) : list string :=
  match s with
  | "" => [""]
  | String c s' =>
      if Ascii.eqb c JS.LF then "" :: lines s'
      else match lines s' with
           | l :: ls => String c l :: ls
           | [] => [String c ""]
           end
  end.

(** The lines that carry the attribute [attr]. *)
Definition attribute_lines (attr : string) (s : string) : list string :=
  List.filter (fun l => JS.startsWith l attr) (lines s).

(** The text has a line starting with [lit] that has a newline before it
    and a newline after it. *)
Definition has_delimited_line (lit s : string) : Prop :=
  exists pre mid post, s = pre ++ JS.nl ++ lit ++ mid ++ JS.nl ++ post.

(** Munging as the specification words it, on a list of segments of which
    the first has no newline before it: the first segment that starts with
    "a=ice-ufrag:" and is followed by another segment becomes
    "a=ice-ufrag:" followed by the ufrag, likewise the first one that
    starts with "a=ice-pwd:"; every other segment is kept.  The flags
    record which of the two has been rewritten already. *)
Fixpoint rewrite_credentials (ufrag : string) (ufrag_done pwd_done : bool)
    (ls : list string) : list string :=
  match ls with
  | [] => []
  | l :: rest =>
      match rest with
      | [] => [l]
      | _ :: _ =>
          if negb ufrag_done && JS.startsWith l "a=ice-ufrag:" then
            ("a=ice-ufrag:" ++ ufrag)
              :: rewrite_credentials ufrag true pwd_done rest
          else if negb pwd_done && JS.startsWith l "a=ice-pwd:" then
            ("a=ice-pwd:" ++ ufrag)
              :: rewrite_credentials ufrag ufrag_done true rest
          else l :: rewrite_credentials ufrag ufrag_done pwd_done rest
      end
  end.

(** One of the two rewritings alone: the first segment that starts with
    [lit] and is followed by another segment becomes [lit] followed by
    the ufrag. *)
Fixpoint rewrite_first_line (lit ufrag : string) (ls : list string)
  : list string :=
  match ls with
  | [] => []
  | l :: rest =>
      match rest with
      | [] => [l]
      | _ :: _ =>
          if JS.startsWith l lit then (lit ++ ufrag) :: rest
          else l :: rewrite_first_line lit ufrag rest
      end
  end.

Definition mungeIceCredentials (ufrag : string) (ls : list string)
  : list string :=
  match ls with
  | [] => []
  | first :: rest => first :: rewrite_credentials ufrag false false rest
  end.

(** The contract of the multihash library that the fingerprint round trip
    rests on: decoding what [multihashes.encode] made of a digest of the
    algorithm's length gives back the algorithm's name and the digest. *)
Definition multihash_roundtrip (libs : Multiformats) : Prop :=
  forall (a : HashAlgorithm) (d mh : bytes),
    List.length d = digest_length a ->
    multihashes_encode d (multihash_code a) = Ok mh ->
    exists m,
      multihashes_decode mh = Ok m /\ name m = multihash_name a /\ digest m = d.

(** [f] is the multihash-wrapped fingerprint of the certificate of the
    connection: the first fingerprint of its first certificate is a
    SHA-256 fingerprint, whose hexadecimal digest [multihashes.encode]
    wraps into [f]. *)
Definition local_fingerprint {libs : Multiformats}
    (pc : Transport.RTCPeerConnection) (f : bytes) : Prop :=
  exists cert certs fp fps v d,
    Transport.certificates (Transport.getConfiguration pc) = Some (cert :: certs)
    /\ Transport.getFingerprints cert = fp :: fps
    /\ Transport.algorithm fp = Some "sha-256"
    /\ Transport.value fp = Some v
    /\ uint8arrayFromString_hex (JS.removeAll ":" v) = Ok d
    /\ multihashes_encode d multihashes_names_sha2_256 = Ok f.

(** [f] is the multihash-wrapped fingerprint that the certificate-hash
    component of the address encodes. *)
Definition remote_fingerprint {libs : Multiformats}
    (ma : Multiaddr) (f : bytes) : Prop :=
  exists certhash_value,
    Sdp.certhash ma = Ok certhash_value
    /\ mbdecoder_decode certhash_value = Ok f.

(** Byte-lexicographic order on byte strings. *)
Fixpoint bytes_ltb (a b : bytes) : bool :=
  match a, b with
  | _, [] => false
  | [], _ :: _ => true
  | x :: a', y :: b' =>
      (Byte.to_N x <? Byte.to_N y)%N
      || ((Byte.to_N x =? Byte.to_N y)%N && bytes_ltb a' b')
  end.

End Spec.

(** ** Concrete addresses and certificates *)
Module Examples.

(** The certificate hash and the peer identity of the addresses in the
    transport's filter test. *)
Definition H : string := "uEiAUqV7kzvM1wI5DYDc1RbcekYVmXli_Qprlw3IkiEg6tQ".
Definition ID : string :=
  "12D3KooWGDMwwqrpcYKpKCgxuKT2NfqPqa94QnkoBBpqvCaiCzWd".

(** The certificate hash of the address in the transport's dial test. *)
Definition H' : string := "uEiD0EMqK00oTPBJ87G7uTUePqN-ZXP4tZ70HmcFCdntyhg".

(** /ip4/1.2.3.4/udp/1234/webrtc/certhash/<H> *)
Definition address1 : Multiaddr :=
  Reference.multiaddr
    [(4, Some "1.2.3.4"); (273, Some "1234"); (280, None); (466, Some H)]%Z.

(** /ip4/1.2.3.4/udp/1234/webrtc/certhash/<H>/p2p/<ID> *)
Definition address2 : Multiaddr :=
  Reference.multiaddr
    [(4, Some "1.2.3.4"); (273, Some "1234"); (280, None); (466, Some H);
     (421, Some ID)]%Z.

(** /ip4/1.2.3.4/udp/1234/webrtc/p2p/<ID> *)
Definition address3 : Multiaddr :=
  Reference.multiaddr
    [(4, Some "1.2.3.4"); (273, Some "1234"); (280, None); (421, Some ID)]%Z.

(** /ip4/1.2.3.4/udp/1234/certhash/<H>/p2p/<ID> *)
Definition address4 : Multiaddr :=
  Reference.multiaddr
    [(4, Some "1.2.3.4"); (273, Some "1234"); (466, Some H);
     (421, Some ID)]%Z.

(** /ip4/192.168.0.152/udp/40972/webrtc/certhash/<H'>/p2p/<ID> *)
Definition address5 : Multiaddr :=
  Reference.multiaddr
    [(4, Some "192.168.0.152"); (273, Some "40972"); (280, None);
     (466, Some H'); (421, Some ID)]%Z.

(** An address whose certificate hash is a (shortened) sha1 multihash in
    base16. *)
Definition sha1_address : Multiaddr :=
  Reference.multiaddr
    [(4, Some "1.2.3.4"); (273, Some "1234"); (280, None);
     (466, Some "f11020a0b"); (421, Some ID)]%Z.

(** The SHA-256 digests that [H] and [H'] wrap. *)
Definition D : bytes :=
  [x14; xa9; x5e; xe4; xce; xf3; x35; xc0; x8e; x43; x60; x37; x35; x45;
   xb7; x1e; x91; x85; x66; x5e; x58; xbf; x42; x9a; xe5; xc3; x72; x24;
   x88; x48; x3a; xb5].
Definition D' : bytes :=
  [xf4; x10; xca; x8a; xd3; x4a; x13; x3c; x12; x7c; xec; x6e; xee; x4d;
   x47; x8f; xa8; xdf; x99; x5c; xfe; x2d; x67; xbd; x07; x99; xc1; x42;
   x76; x7b; x72; x86].

(** The multihash-wrapped fingerprints: sha2-256, 32 bytes, the digest. *)
Definition F1 : bytes := x12 :: x20 :: D.
Definition F2 : bytes := x12 :: x20 :: D'.

(** A third sha2-256 multihash, whose digest starts with the byte 100. *)
Definition F3 : bytes := x12 :: x20 :: x64 :: List.repeat x00 31.

Definition certificate (alg : option string) (v : string)
  : Transport.RTCCertificate :=
  {| Transport.getFingerprints :=
       [ {| Transport.algorithm := alg; Transport.value := Some v |} ] |}.

Definition connection (cert : Transport.RTCCertificate)
  : Transport.RTCPeerConnection :=
  {| Transport.getConfiguration :=
       {| Transport.certificates := Some [cert] |} |}.

(** A connection whose certificate has the digest [D]. *)
Definition pc1 : Transport.RTCPeerConnection :=
  connection
    (certificate (Some "sha-256")
       "14:a9:5e:e4:ce:f3:35:c0:8e:43:60:37:35:45:b7:1e:91:85:66:5e:58:bf:42:9a:e5:c3:72:24:88:48:3a:b5").

(** A connection whose certificate has the digest [D']. *)
Definition pc2 : Transport.RTCPeerConnection :=
  connection
    (certificate (Some "sha-256")
       "f4:10:ca:8a:d3:4a:13:3c:12:7c:ec:6e:ee:4d:47:8f:a8:df:99:5c:fe:2d:67:bd:07:99:c1:42:76:7b:72:86").



Definition prologue_prefix : bytes :=
  uint8arrayFromString "libp2p-webrtc-noise:".

(** A locally generated offer, as far as munging is concerned. *)
Definition offer_body : string :=
  "v=0" ++ JS.nl ++ "a=ice-ufrag:Zq1x" ++ JS.nl ++ "a=ice-pwd:secret"
  ++ JS.nl ++ "a=ice-ufrag:other" ++ JS.nl.

Definition offer : Sdp.RTCSessionDescriptionInit :=
  {| Sdp.type := Sdp.offer; Sdp.sdp := Some offer_body |}.

(** A body whose only credential line is its first line. *)
Definition headless : Sdp.RTCSessionDescriptionInit :=
  {| Sdp.type := Sdp.offer;
     Sdp.sdp := Some ("a=ice-ufrag:Zq1x" ++ JS.nl ++ "v=0" ++ JS.nl) |}.

Definition no_body : Sdp.RTCSessionDescriptionInit :=
  {| Sdp.type := Sdp.offer; Sdp.sdp := None |}.

End Examples.

(** ** The dial sequence of transport.js

    [_connect] is a chain of awaited calls to collaborators: the WebRTC
    engine, the UUID generator, the peer-identity parser, the Noise
    handshake and the upgrader.  A run of it is modelled by what each
    collaborator answered ([Collaborators]) and yields the calls made, in
    order, with what the promise of [_connect] settles to.  Which of the
    three callbacks of the handshake channel (open, error, timer) comes
    first is decided outside the function; the run records which one it
    was.  Making the peer connection and the data channel, and the
    constructors called between the prologue and the handshake (the
    stream, the connection wrapper, the muxer factory), are taken not to
    throw. *)
Module Dial.

(** What makes the promise of [_connect] reject. *)
Inductive Failure : Type :=
| Thrown (e : WebRTCError)
  (** an exception of [sdp.js] or [transport.js] *)
| DataChannelFailure (channel message : string)
  (** Modelled from the spec: [dataChannelError(channel, message)] of
      [error.js], which is not among the sources *)
| Rejected (reason : string)
  (** the rejection of a collaborator's promise, or its exception *).

Inductive outcome (A : Type) : Type :=
| Fulfilled (a : A)
| Failed (f : Failure).
Arguments Fulfilled {A} a.
Arguments Failed {A} f.

(** The callback of the handshake channel that came first: [onopen],
    [onerror] with the event as text, or the timer after
    HANDSHAKE_TIMEOUT_MS with the channel's ready state as text. *)
Inductive ChannelEvent : Type :=
| Opened
| Errored (ev : string)
| TimedOut (readyState : string).

Section WithCollaborators.

Variables PeerId Connection : Type.
Context {libs : Multiformats}.

Record Collaborators : Type := {
  (** [RTCPeerConnection.generateCertificate(...)] *)
  generateCertificate : outcome Transport.RTCCertificate;
  (** [peerConnection.createOffer()] *)
  createOffer : outcome Sdp.RTCSessionDescriptionInit;
  (** [genUuid()] *)
  genUuid : string;
  (** [peerConnection.setLocalDescription(desc)] *)
  setLocalDescription : Sdp.RTCSessionDescriptionInit -> outcome unit;
  (** [peerConnection.setRemoteDescription(desc)] *)
  setRemoteDescription : Sdp.RTCSessionDescriptionInit -> outcome unit;
  handshakeChannel : ChannelEvent;
  (** [p.peerIdFromString(s)] *)
  peerIdFromString : string -> outcome PeerId;
  (** [noise.secureInbound(localPeer, duplex, remotePeer)] of a [Noise]
      made with the prologue *)
  secureInbound : bytes -> PeerId -> PeerId -> outcome unit;
  (** [options.upgrader.upgradeOutbound(maConn, ...)] for the connection
      wrapper of the address and the peer connection *)
  upgradeOutbound :
    Multiaddr -> Transport.RTCPeerConnection -> outcome Connection
}.

(** The calls that [_connect] makes. *)
Inductive Step : Type :=
| GenerateCertificate (name namedCurve hash : string)
| NewPeerConnection (certificates : list Transport.RTCCertificate)
| CreateDataChannel (label : string) (negotiated : bool) (id : Z)
| CreateOffer
| SetLocalDescription (desc : Sdp.RTCSessionDescriptionInit)
| SetRemoteDescription (desc : Sdp.RTCSessionDescriptionInit)
| AwaitDataChannel
| SecureInbound (prologue : bytes) (localPeer remotePeer : PeerId)
| UpgradeOutbound (remoteAddr : Multiaddr) (skipProtection skipEncryption : bool).

(** The calls made so far and the value or the failure they led to. *)
Definition run (A : Type) : Type := (list Step * outcome A)%type.

Definition andThen {A B : Type} (m : run A) (k : A -> run B) : run B :=
  match m with
  | (steps, Fulfilled a) =>
      let (steps', r) := k a in ((steps ++ steps')%list, r)
  | (steps, Failed f) => (steps, Failed f)
  end.

(** A call to a collaborator and its answer. *)
Definition call {A : Type} (s : Step) (answer : outcome A) : run A :=
  ([s], answer).

(** A function of the sources: it makes no call, and what it throws
    rejects the promise. *)
Definition inline {A : Type} (r : result A) : run A :=
  ([], match r with
       | Ok a => Fulfilled a
       | Throw e => Failed (Thrown e)
       end).

Definition HANDSHAKE_TIMEOUT_MS : Z := 10000.

(** The place of a call in the sequence. *)
Definition position (s : Step) : nat :=
  match s with
  | GenerateCertificate _ _ _ => 0
  | NewPeerConnection _ => 1
  | CreateDataChannel _ _ _ => 2
  | CreateOffer => 3
  | SetLocalDescription _ => 4
  | SetRemoteDescription _ => 5
  | AwaitDataChannel => 6
  | SecureInbound _ _ _ => 7
  | UpgradeOutbound _ _ _ => 8
  end.

Definition _connect (c : Collaborators) (myPeerId : PeerId) (ma : Multiaddr)
  : run Connection :=
  match getPeerId ma with
  | Some (String ch rest) =>
      let rps := String ch rest in
      andThen (call (GenerateCertificate "ECDSA" "P-256" "SHA-256")
                 (generateCertificate c)) (fun certificate =>
      let peerConnection :=
        {| Transport.getConfiguration :=
             {| Transport.certificates := Some [certificate] |} |} in
      andThen (call (NewPeerConnection [certificate]) (Fulfilled tt)) (fun _ =>
      andThen (call (CreateDataChannel "handshake" true 0) (Fulfilled tt))
        (fun _ =>
      andThen (call CreateOffer (createOffer c)) (fun offerSdp =>
      let ufrag := JS.removeAll "-" (genUuid c) in
      andThen (inline (snd (Sdp.munge offerSdp ufrag))) (fun offerSdp =>
      andThen (call (SetLocalDescription offerSdp)
                 (setLocalDescription c offerSdp)) (fun _ =>
      andThen (inline (Sdp.fromMultiAddr ma ufrag)) (fun answerSdp =>
      andThen (call (SetRemoteDescription answerSdp)
                 (setRemoteDescription c answerSdp)) (fun _ =>
      andThen (call AwaitDataChannel
                 match handshakeChannel c with
                 | Opened => Fulfilled tt
                 | TimedOut readyState =>
                     Failed (DataChannelFailure "data"
                               ("data channel was never opened: state: "
                                ++ readyState))
                 | Errored ev =>
                     Failed (DataChannelFailure "data"
                               ("error opening datachannel: " ++ ev))
                 end) (fun _ =>
      andThen ([], peerIdFromString c rps) (fun theirPeerId =>
      andThen (inline (Transport.generateNoisePrologue peerConnection ma))
        (fun fingerprintsPrologue =>
      andThen (call (SecureInbound fingerprintsPrologue myPeerId theirPeerId)
                 (secureInbound c fingerprintsPrologue myPeerId theirPeerId))
        (fun _ =>
      call (UpgradeOutbound ma true true)
        (upgradeOutbound c ma peerConnection)))))))))))))
  | Some "" | None =>
      (* [null] and the empty string are falsy *)
      inline (Throw (inappropriateMultiaddr
                       "we need to have the remote's PeerId"))
  end.

(** [dial] awaits [_connect], logs the address and returns the
    connection; the log is not modelled. *)
Definition dial (c : Collaborators) (myPeerId : PeerId) (ma : Multiaddr)
  : run Connection :=
  andThen (_connect c myPeerId ma) (fun rawConn => ([], Fulfilled rawConn)).

(** [createListener] takes options and throws. *)
Definition createListener : result unit :=
  Throw (unimplemented "WebRTCTransport.createListener").

End WithCollaborators.

Arguments generateCertificate {PeerId Connection} c.
Arguments createOffer {PeerId Connection} c.
Arguments genUuid {PeerId Connection} c.
Arguments setLocalDescription {PeerId Connection} c desc.
Arguments setRemoteDescription {PeerId Connection} c desc.
Arguments handshakeChannel {PeerId Connection} c.
Arguments peerIdFromString {PeerId Connection} c s.
Arguments secureInbound {PeerId Connection} c prologue localPeer remotePeer.
Arguments upgradeOutbound {PeerId Connection} c ma pc.
Arguments GenerateCertificate {PeerId} name namedCurve hash.
Arguments NewPeerConnection {PeerId} certificates.
Arguments CreateDataChannel {PeerId} label negotiated id.
Arguments CreateOffer {PeerId}.
Arguments SetLocalDescription {PeerId} desc.
Arguments SetRemoteDescription {PeerId} desc.
Arguments AwaitDataChannel {PeerId}.
Arguments SecureInbound {PeerId} prologue localPeer remotePeer.
Arguments UpgradeOutbound {PeerId} remoteAddr skipProtection skipEncryption.
Arguments position {PeerId} s.
Arguments _connect {PeerId Connection libs} c myPeerId ma.
Arguments dial {PeerId Connection libs} c myPeerId ma.

End Dial.

(** ** The draft sdp.ts

    An earlier draft of the SDP module.  It fills a template by
    [String.prototype.replace] with a text as search value, which replaces
    the first occurrence of that very text. *)
Module DraftSdp.

(** [s.split(c)] for a one-character separator. *)
Fixpoint split (c : ascii) (s : string) : list string :=
  match s with
  | "" => [""]
  | String d s' =>
      if Ascii.eqb d c then "" :: split c s'
      else match split c s' with
           | l :: ls => String d l :: ls
           | [] => [String d ""]
           end
  end.

(** The first occurrence of [pat] in [s]: the text before it and the text
    after it. *)
Fixpoint search (pat s : string) : option (string * string) :=
  match JS.strip_prefix pat s with
  | Some rest => Some ("", rest)
  | None =>
      match s with
      | "" => None
      | String c s' =>
          match search pat s' with
          | Some (pre, post) => Some (String c pre, post)
          | None => None
          end
      end
  end.

(** [s.replace(pat, replacement)] for a text [pat]. *)
Definition replace (pat replacement s : string) : string :=
  match search pat s with
  | None => s
  | Some (pre, post) =>
      pre ++ JS.GetSubstitution pat pre post replacement ++ post
  end.

Definition P_XWEBRTC : Z := 0x118.

Definition SDP_FORMAT : string :=
  JS.nl
  ++ "v=0" ++ JS.nl
  ++ "o=- 0 0 IN %s %s" ++ JS.nl
  ++ "s=-" ++ JS.nl
  ++ "c=IN %s %s" ++ JS.nl
  ++ "t=0 0" ++ JS.nl
  ++ "m=application %d UDP/DTLS/SCTP webrtc-datachannel" ++ JS.nl
  ++ "a=mid:0" ++ JS.nl
  ++ "a=ice-options:ice2" ++ JS.nl
  ++ "a=ice-ufrag:%s" ++ JS.nl
  ++ "a=ice-pwd:%s" ++ JS.nl
  ++ "a=fingerprint:%s" ++ JS.nl
  ++ "a=setup:actpass" ++ JS.nl
  ++ "a=sctp-port:5000" ++ JS.nl
  ++ "a=max-message-size:100000" ++ JS.nl.

Definition ipv (ma : Multiaddr) : string :=
  match find (fun proto => JS.startsWith proto "ip") (protoNames ma) with
  | Some proto => JS.toUpperCase proto
  | None => "IP6"
  end.

Definition ip (ma : Multiaddr) : result string :=
  o <- toOptions ma ;; Ok (host o).

Definition port (ma : Multiaddr) : result N :=
  o <- toOptions ma ;; Ok (port o).

(** The second of the fields that slashes separate in the value of the
    first WebRTC component; [undefined] when the value has no slash. *)
Definition certhash (ma : Multiaddr) : result (option string) :=
  let webrtc_value :=
    match List.map snd
            (filter (fun tup => Z.eqb (fst tup) P_XWEBRTC) (stringTuples ma))
    with
    | v :: _ => v
    | [] => None
    end in
  match webrtc_value with
  | Some (String c v) => Ok (nth_error (split "/" (String c v)) 1)
  | Some "" | None =>
      Throw (ForeignError
               ("Couldn't find a webrtc component of multiaddr:"
                ++ toString ma))
  end.

(** A replacement value as text. *)
Definition ToString (v : option string) : string :=
  match v with
  | Some s => s
  | None => "undefined"
  end.

(** The arguments of the chained calls are evaluated in the order of the
    chain. *)
Definition ma2sdp (ma : Multiaddr) (ufrag : string) : result string :=
  let s := replace "/%s/" (ipv ma) SDP_FORMAT in
  h <- ip ma ;;
  let s := replace "/%s/" h s in
  let s := replace "/%s/" (ipv ma) s in
  h <- ip ma ;;
  let s := replace "/%s/" h s in
  p <- port ma ;;
  let s := replace "/%s/" (JS.Number_toString p) s in
  let s := replace "/%s/" ufrag s in
  let s := replace "/%s/" ufrag s in
  c <- certhash ma ;;
  Ok (replace "/%s/" (ToString c) s).

Definition fromMultiAddr (ma : Multiaddr) (ufrag : string)
  : result Sdp.RTCSessionDescriptionInit :=
  body <- ma2sdp ma ufrag ;;
  Ok {| Sdp.type := Sdp.offer; Sdp.sdp := Some body |}.

End DraftSdp.

(** ** More addresses and certificates *)
Module Cases.

(** /dns4/example.com/udp/1234/webrtc/certhash/<H>/p2p/<ID> *)
Definition dns_address : Multiaddr :=
  Reference.multiaddr
    [(54, Some "example.com"); (273, Some "1234"); (280, None);
     (466, Some Examples.H); (421, Some Examples.ID)]%Z.

(** /ip4/1.2.3.4/udp/1234/webrtc/certhash/f1200/p2p/<ID>: a sha2-256
    multihash with an empty digest, in base16. *)
Definition empty_digest_address : Multiaddr :=
  Reference.multiaddr
    [(4, Some "1.2.3.4"); (273, Some "1234"); (280, None);
     (466, Some "f1200"); (421, Some Examples.ID)]%Z.

(** A connection configured with an empty list of certificates. *)
Definition pc_no_certificate : Transport.RTCPeerConnection :=
  {| Transport.getConfiguration := {| Transport.certificates := Some [] |} |}.

(** A connection whose certificate has no fingerprint. *)
Definition pc_no_fingerprint : Transport.RTCPeerConnection :=
  Examples.connection {| Transport.getFingerprints := [] |}.

(** An offer with carriage returns before the newlines, as engines
    write them. *)
Definition crlf_offer : Sdp.RTCSessionDescriptionInit :=
  {| Sdp.type := Sdp.offer;
     Sdp.sdp := Some ("v=0" ++ String JS.CR JS.nl
                      ++ "a=ice-ufrag:Zq1x" ++ String JS.CR JS.nl
                      ++ "a=ice-pwd:secret" ++ String JS.CR JS.nl) |}.

(** Collaborators that all do their part: the engine hands out a
    certificate with the digest [D] and the offer of [Examples], the
    channel opens, the handshake and the upgrade succeed.  Peer identities
    and the connection are represented by text. *)
Definition willing : Dial.Collaborators string string :=
  {| Dial.generateCertificate :=
       Dial.Fulfilled
         (Examples.certificate (Some "sha-256")
            "14:a9:5e:e4:ce:f3:35:c0:8e:43:60:37:35:45:b7:1e:91:85:66:5e:58:bf:42:9a:e5:c3:72:24:88:48:3a:b5");
     Dial.createOffer := Dial.Fulfilled Examples.offer;
     Dial.genUuid := "01234567-89ab-4def-8123-456789abcdef";
     Dial.setLocalDescription := fun _ => Dial.Fulfilled tt;
     Dial.setRemoteDescription := fun _ => Dial.Fulfilled tt;
     Dial.handshakeChannel := Dial.Opened;
     Dial.peerIdFromString := fun s => Dial.Fulfilled s;
     Dial.secureInbound := fun _ _ _ => Dial.Fulfilled tt;
     Dial.upgradeOutbound := fun ma _ => Dial.Fulfilled (toString ma) |}.

(** The same, but the handshake channel never opens. *)
Definition silent : Dial.Collaborators string string :=
  {| Dial.generateCertificate := Dial.generateCertificate willing;
     Dial.createOffer := Dial.createOffer willing;
     Dial.genUuid := Dial.genUuid willing;
     Dial.setLocalDescription := Dial.setLocalDescription willing;
     Dial.setRemoteDescription := Dial.setRemoteDescription willing;
     Dial.handshakeChannel := Dial.TimedOut "connecting";
     Dial.peerIdFromString := Dial.peerIdFromString willing;
     Dial.secureInbound := Dial.secureInbound willing;
     Dial.upgradeOutbound := Dial.upgradeOutbound willing |}.

(** The same as [willing], but the Noise handshake fails. *)
Definition refused : Dial.Collaborators string string :=
  {| Dial.generateCertificate := Dial.generateCertificate willing;
     Dial.createOffer := Dial.createOffer willing;
     Dial.genUuid := Dial.genUuid willing;
     Dial.setLocalDescription := Dial.setLocalDescription willing;
     Dial.setRemoteDescription := Dial.setRemoteDescription willing;
     Dial.handshakeChannel := Dial.Opened;
     Dial.peerIdFromString := Dial.peerIdFromString willing;
     Dial.secureInbound :=
       fun _ _ _ => Dial.Failed (Dial.Rejected "handshake failed");
     Dial.upgradeOutbound := Dial.upgradeOutbound willing |}.

(** /ip4/1.2.3.4/udp/1234/x-webrtc/sha-256/<H>, as the draft reads
    addresses: the WebRTC component has the code 0x118 and a value. *)
Definition draft_address : Multiaddr :=
  {| protoNames := ["ip4"; "udp"; "x-webrtc"];
     protoCodes := [4; 273; 280]%Z;
     stringTuples :=
       [(4, Some "1.2.3.4"); (273, Some "1234");
        (280, Some ("sha-256/" ++ Examples.H))]%Z;
     getPeerId := None;
     toOptions := Ok {| host := "1.2.3.4"; port := 1234 |};
     toString := "/ip4/1.2.3.4/udp/1234/x-webrtc/sha-256/" ++ Examples.H |}.

End Cases.

(** * Properties *)

(** ** The address codec *)

Lemma filter_without_code :
  forall (tups : list (Z * option string)) (c : Z),
    (forall t, In t tups -> fst t <> c) ->
    List.filter (fun tup => Z.eqb (fst tup) c) tups = [].
Proof.
  induction tups as [|t tups IH]; intros c Hno; simpl.
  - reflexivity.
  - destruct (Z.eqb_spec (fst t) c) as [E|_].
    + exfalso. apply (Hno t); [left; reflexivity | exact E].
    + apply IH. intros t' Hin. apply Hno. right. exact Hin.
Qed.

(** C6.  An address without certificate-hash component makes [certhash]
    fail with the inappropriate-address error; otherwise [certhash] returns
    the encoded value of the first certificate-hash component as it stands
    (a multibase text, which always has its base prefix and so is never
    empty), whether one or several such components are present. *)
Theorem certhash_first_component :
  forall ma : Multiaddr,
    ((forall t, In t (stringTuples ma) -> fst t <> Sdp.CERTHASH_CODE) ->
     Sdp.certhash ma
     = Throw (InappropriateMultiaddrError
                ("Couldn't find a certhash component of multiaddr:"
                 ++ toString ma)))
    /\
    (forall before v after,
        stringTuples ma = (before ++ (Sdp.CERTHASH_CODE, Some v) :: after)%list ->
        (forall t, In t before -> fst t <> Sdp.CERTHASH_CODE) ->
        v <> "" ->
        Sdp.certhash ma = Ok v).
Proof.
  intros ma. split.
  - intros Hno. unfold Sdp.certhash.
    rewrite (filter_without_code _ _ Hno). reflexivity.
  - intros before v after Htups Hno Hv. unfold Sdp.certhash.
    rewrite Htups, filter_app, (filter_without_code _ _ Hno). simpl.
    destruct v as [|c v]; [contradiction|reflexivity].
Qed.

Lemma certhash_first_component_witness :
  Sdp.certhash Examples.address3
  = Throw (InappropriateMultiaddrError
             ("Couldn't find a certhash component of multiaddr:"
              ++ toString Examples.address3))
  /\ Sdp.certhash Examples.address2 = Ok Examples.H.
Proof.
  split.
  - apply (proj1 (certhash_first_component Examples.address3)).
    intros t Hin. simpl in Hin.
    repeat (destruct Hin as [<-|Hin]; [discriminate|]). contradiction.
  - apply (proj2 (certhash_first_component Examples.address2)
             [(4, Some "1.2.3.4"); (273, Some "1234"); (280, None)]%Z
             Examples.H [(421, Some Examples.ID)]%Z).
    + reflexivity.
    + intros t Hin. simpl in Hin.
      repeat (destruct Hin as [<-|Hin]; [discriminate|]). contradiction.
    + discriminate.
Defined.

Lemma includes_In :
  forall (codes : list Z) (c : Z),
    Transport.includes codes c = true <-> In c codes.
Proof.
  intros codes c. unfold Transport.includes. rewrite existsb_exists. split.
  - intros [x [Hin Heq]]. apply Z.eqb_eq in Heq. subst x. exact Hin.
  - intros Hin. exists c. split; [exact Hin | apply Z.eqb_refl].
Qed.

(** C7.  [filter] keeps exactly the addresses whose protocol codes include
    both the WebRTC code and the certificate-hash code and that name a
    peer; of the four addresses of the transport's test it keeps the
    second only. *)
Theorem filter_keeps_dialable :
  (forall (mas : list Multiaddr) (ma : Multiaddr),
      In ma (Transport.filter mas)
      <-> In ma mas
          /\ In Transport.WEBRTC_CODE (protoCodes ma)
          /\ In Transport.CERTHASH_CODE (protoCodes ma)
          /\ getPeerId ma <> None)
  /\ Transport.filter
       [Examples.address1; Examples.address2; Examples.address3;
        Examples.address4]
     = [Examples.address2].
Proof.
  split.
  - intros mas ma. unfold Transport.filter. rewrite filter_In.
    unfold Transport.validMa. rewrite !andb_true_iff, !includes_In.
    destruct (getPeerId ma) as [id|].
    + intuition discriminate.
    + intuition (discriminate || congruence).
  - reflexivity.
Qed.

(** ** The SDP mutator *)

(** C9.  Munging a description without SDP body fails with the
    invalid-argument error and leaves the description as it was. *)
Theorem munge_without_body :
  forall (desc : Sdp.RTCSessionDescriptionInit) (ufrag : string),
    Sdp.sdp desc = None ->
    Sdp.munge desc ufrag
    = (desc, Throw (InvalidArgumentError "Can't munge a missing SDP")).
Proof.
  intros desc ufrag Hnone. unfold Sdp.munge. rewrite Hnone. reflexivity.
Qed.

(** A body that is the empty string is missing as well. *)
Lemma munge_empty_body :
  forall (ty : Sdp.RTCSdpType) (ufrag : string),
    Sdp.munge {| Sdp.type := ty; Sdp.sdp := Some "" |} ufrag
    = ({| Sdp.type := ty; Sdp.sdp := Some "" |},
       Throw (InvalidArgumentError "Can't munge a missing SDP")).
Proof. reflexivity. Qed.

Lemma munge_without_body_witness :
  Sdp.munge Examples.no_body "0123abcd"
  = (Examples.no_body, Throw (InvalidArgumentError "Can't munge a missing SDP")).
Proof.
  apply (munge_without_body Examples.no_body "0123abcd"). reflexivity.
Defined.

(** *** Texts, lines and the regular expressions of [munge] *)

Lemma append_assoc :
  forall a b c : string, (a ++ b) ++ c = a ++ b ++ c.
Proof.
  induction a as [|x a IH]; intros b c; simpl; [reflexivity|].
  rewrite IH. reflexivity.
Qed.

Lemma append_nil_r : forall a : string, a ++ "" = a.
Proof.
  induction a as [|x a IH]; simpl; [reflexivity|]. rewrite IH. reflexivity.
Qed.

Lemma contains_app :
  forall (c : ascii) (a b : string),
    Spec.contains c (a ++ b) = Spec.contains c a || Spec.contains c b.
Proof.
  induction a as [|x a IH]; intros b; simpl; [reflexivity|].
  rewrite IH, orb_assoc. reflexivity.
Qed.

Lemma strip_prefix_app :
  forall p t : string, JS.strip_prefix p (p ++ t) = Some t.
Proof.
  induction p as [|x p IH]; intros t; simpl; [reflexivity|].
  rewrite Ascii.eqb_refl. apply IH.
Qed.

Lemma strip_prefix_Some :
  forall p s t : string, JS.strip_prefix p s = Some t -> s = p ++ t.
Proof.
  induction p as [|x p IH]; intros s t H; simpl in *.
  - congruence.
  - destruct s as [|y s]; [discriminate|].
    destruct (Ascii.eqb_spec x y) as [->|_]; [|discriminate].
    rewrite (IH _ _ H). reflexivity.
Qed.

Lemma startsWith_app :
  forall p t : string, JS.startsWith (p ++ t) p = true.
Proof.
  intros p t. unfold JS.startsWith. rewrite strip_prefix_app. reflexivity.
Qed.

Lemma until_newline_Some :
  forall s l r : string,
    JS.until_newline s = Some (l, r) ->
    s = l ++ JS.nl ++ r /\ Spec.contains JS.LF l = false.
Proof.
  induction s as [|c s IH]; intros l r H; simpl in H; [discriminate|].
  destruct (Ascii.eqb_spec c JS.LF) as [->|Hc].
  - inversion H; subst. split; reflexivity.
  - destruct (JS.until_newline s) as [[l' r']|] eqn:E; [|discriminate].
    inversion H; subst. destruct (IH _ _ eq_refl) as [-> Hl]. split.
    + reflexivity.
    + simpl. rewrite Hl. apply Ascii.eqb_neq in Hc. rewrite Hc. reflexivity.
Qed.

Lemma until_newline_None :
  forall s : string,
    JS.until_newline s = None -> Spec.contains JS.LF s = false.
Proof.
  induction s as [|c s IH]; intros H; simpl in *; [reflexivity|].
  destruct (Ascii.eqb c JS.LF); [discriminate|].
  destruct (JS.until_newline s) as [[l r]|]; [discriminate|].
  apply IH. reflexivity.
Qed.

Lemma match_here_cons :
  forall (lit : string) (c : ascii) (s : string),
    JS.match_here lit (String c s)
    = if Ascii.eqb JS.LF c then
        match JS.strip_prefix lit s with
        | Some t =>
            match JS.until_newline t with
            | Some (mid, rest) => Some (JS.nl ++ lit ++ mid ++ JS.nl, rest)
            | None => None
            end
        | None => None
        end
      else None.
Proof.
  intros lit c s. unfold JS.match_here.
  change (JS.strip_prefix (JS.nl ++ lit) (String c s))
    with (if Ascii.eqb JS.LF c then JS.strip_prefix lit s else None).
  destruct (Ascii.eqb JS.LF c); reflexivity.
Qed.

Lemma match_here_Some :
  forall lit s m rest : string,
    JS.match_here lit s = Some (m, rest) ->
    exists mid,
      m = JS.nl ++ lit ++ mid ++ JS.nl
      /\ s = m ++ rest
      /\ Spec.contains JS.LF mid = false.
Proof.
  intros lit s m rest H. unfold JS.match_here in H.
  destruct (JS.strip_prefix (JS.nl ++ lit) s) as [t|] eqn:Ep; [|discriminate].
  destruct (JS.until_newline t) as [[mid r]|] eqn:En; [|discriminate].
  inversion H; subst. exists mid.
  apply strip_prefix_Some in Ep. apply until_newline_Some in En.
  destruct En as [-> Hmid]. subst s. repeat split; [|exact Hmid].
  simpl. rewrite !append_assoc. simpl. reflexivity.
Qed.

Lemma regexp_exec_Some :
  forall lit s pre m post : string,
    JS.regexp_exec lit s = Some (pre, m, post) ->
    s = pre ++ m ++ post
    /\ exists mid, m = JS.nl ++ lit ++ mid ++ JS.nl.
Proof.
  intros lit. induction s as [|c s IH]; intros pre m post H.
  - simpl in H. destruct (JS.match_here lit "") as [[m' r]|] eqn:E.
    + unfold JS.match_here in E. simpl in E. discriminate.
    + discriminate.
  - simpl in H. destruct (JS.match_here lit (String c s)) as [[m' r]|] eqn:E.
    + inversion H; subst.
      destruct (match_here_Some _ _ _ _ E) as [mid [Hm [Hs _]]].
      split; [exact Hs | exists mid; exact Hm].
    + destruct (JS.regexp_exec lit s) as [[[pre' m'] post']|] eqn:E';
        [|discriminate].
      inversion H; subst. destruct (IH _ _ _ eq_refl) as [-> Hm].
      split; [reflexivity | exact Hm].
Qed.

Lemma until_newline_app :
  forall a b : string,
    exists l r, JS.until_newline (a ++ JS.nl ++ b) = Some (l, r).
Proof.
  induction a as [|c a IH]; intros b.
  - exists "", b. reflexivity.
  - change ((String c a) ++ JS.nl ++ b) with (String c (a ++ JS.nl ++ b)).
    cbn [JS.until_newline]. destruct (Ascii.eqb c JS.LF).
    + eexists _, _. reflexivity.
    + destruct (IH b) as [l [r ->]]. eexists _, _. reflexivity.
Qed.

(** The matcher finds a match exactly when the text has one. *)
Lemma regexp_exec_complete :
  forall lit s : string,
    Spec.has_delimited_line lit s -> JS.regexp_exec lit s <> None.
Proof.
  intros lit s [pre [mid [post ->]]].
  induction pre as [|c pre IH].
  - change ("" ++ JS.nl ++ lit ++ mid ++ JS.nl ++ post)
      with (String JS.LF (lit ++ mid ++ JS.nl ++ post)).
    cbn [JS.regexp_exec]. rewrite match_here_cons, Ascii.eqb_refl.
    rewrite strip_prefix_app. destruct (until_newline_app mid post) as [l [r ->]].
    discriminate.
  - change (String c pre ++ JS.nl ++ lit ++ mid ++ JS.nl ++ post)
      with (String c (pre ++ JS.nl ++ lit ++ mid ++ JS.nl ++ post)).
    cbn [JS.regexp_exec].
    destruct (JS.match_here lit _) as [[m r]|]; [discriminate|].
    destruct (JS.regexp_exec lit _) as [[[pre' m'] post']|];
      [discriminate | contradiction].
Qed.

Lemma regexp_exec_None :
  forall lit s : string,
    JS.regexp_exec lit s = None -> ~ Spec.has_delimited_line lit s.
Proof.
  intros lit s E H. exact (regexp_exec_complete lit s H E).
Qed.

Lemma replace_without_line :
  forall lit replacement s : string,
    ~ Spec.has_delimited_line lit s ->
    JS.replace lit replacement s = s.
Proof.
  intros lit replacement s Hno. unfold JS.replace.
  destruct (JS.regexp_exec lit s) as [[[pre m] post]|] eqn:E; [|reflexivity].
  exfalso. apply Hno. destruct (regexp_exec_Some _ _ _ _ _ E) as [-> [mid ->]].
  exists pre, mid, post. rewrite !append_assoc. reflexivity.
Qed.

Lemma first_line_app :
  forall pre x y : string,
    hd "" (Spec.lines (pre ++ String JS.LF x))
    = hd "" (Spec.lines (pre ++ String JS.LF y)).
Proof.
  induction pre as [|c pre IH]; intros x y; simpl.
  - reflexivity.
  - destruct (Ascii.eqb c JS.LF); [reflexivity|].
    specialize (IH x y).
    destruct (Spec.lines (pre ++ String JS.LF x)) as [|l ls];
      destruct (Spec.lines (pre ++ String JS.LF y)) as [|l' ls'];
      simpl in *; congruence.
Qed.

Lemma GetSubstitution_LF :
  forall matched pre post t : string,
    JS.GetSubstitution matched pre post (String JS.LF t)
    = String JS.LF (JS.GetSubstitution matched pre post t).
Proof. reflexivity. Qed.

Lemma replace_first_line :
  forall lit t s : string,
    hd "" (Spec.lines (JS.replace lit (String JS.LF t) s))
    = hd "" (Spec.lines s).
Proof.
  intros lit t s. unfold JS.replace.
  destruct (JS.regexp_exec lit s) as [[[pre m] post]|] eqn:E; [|reflexivity].
  destruct (regexp_exec_Some _ _ _ _ _ E) as [-> [mid ->]].
  rewrite GetSubstitution_LF. simpl. apply first_line_app.
Qed.

Lemma replace_nonempty :
  forall lit t s : string,
    s <> "" -> JS.replace lit (String JS.LF t) s <> "".
Proof.
  intros lit t s Hs. unfold JS.replace.
  destruct (JS.regexp_exec lit s) as [[[pre m] post]|] eqn:E; [|exact Hs].
  rewrite GetSubstitution_LF. destruct pre; discriminate.
Qed.

(** The shape of what [munge] does to a description with a body. *)
Lemma munge_with_body :
  forall (desc : Sdp.RTCSessionDescriptionInit) (body ufrag : string),
    Sdp.sdp desc = Some body ->
    body <> "" ->
    Sdp.munge desc ufrag
    = (let desc' :=
         {| Sdp.type := Sdp.type desc;
            Sdp.sdp := Some
              (JS.replace "a=ice-pwd:" (JS.nl ++ "a=ice-pwd:" ++ ufrag ++ JS.nl)
                 (JS.replace "a=ice-ufrag:"
                    (JS.nl ++ "a=ice-ufrag:" ++ ufrag ++ JS.nl) body)) |} in
       (desc', Ok desc')).
Proof.
  intros desc body ufrag Hsdp Hne. unfold Sdp.munge. rewrite Hsdp.
  destruct body; [contradiction|reflexivity].
Qed.

(** C10.  A description whose non-empty body has no newline-delimited
    ice-ufrag line and no newline-delimited ice-pwd line is returned by
    [munge] as it is, without error, whatever the ufrag; and for any
    non-empty body the segment before the first newline is never
    rewritten, so an ice-ufrag or ice-pwd line at the very start of the
    body keeps its value. *)
Theorem munge_without_credential_lines :
  forall (desc : Sdp.RTCSessionDescriptionInit) (body ufrag : string),
    Sdp.sdp desc = Some body ->
    body <> "" ->
    (~ Spec.has_delimited_line "a=ice-ufrag:" body ->
     ~ Spec.has_delimited_line "a=ice-pwd:" body ->
     Sdp.munge desc ufrag = (desc, Ok desc))
    /\
    (exists body',
        Sdp.munge desc ufrag
        = ({| Sdp.type := Sdp.type desc; Sdp.sdp := Some body' |},
           Ok {| Sdp.type := Sdp.type desc; Sdp.sdp := Some body' |})
        /\ hd "" (Spec.lines body') = hd "" (Spec.lines body)).
Proof.
  intros desc body ufrag Hsdp Hne. rewrite (munge_with_body _ _ _ Hsdp Hne).
  split.
  - intros Hu Hp. cbv zeta.
    rewrite (replace_without_line "a=ice-ufrag:" _ body Hu).
    rewrite (replace_without_line "a=ice-pwd:" _ body Hp).
    destruct desc as [ty sd]. simpl in *. subst sd. reflexivity.
  - eexists. split; [reflexivity|].
    change (JS.nl ++ "a=ice-pwd:" ++ ufrag ++ JS.nl)
      with (String JS.LF ("a=ice-pwd:" ++ ufrag ++ JS.nl)).
    change (JS.nl ++ "a=ice-ufrag:" ++ ufrag ++ JS.nl)
      with (String JS.LF ("a=ice-ufrag:" ++ ufrag ++ JS.nl)).
    rewrite !replace_first_line. reflexivity.
Qed.

Lemma munge_without_credential_lines_witness :
  Sdp.munge Examples.headless "0123abcd"
  = (Examples.headless, Ok Examples.headless).
Proof.
  apply (proj1 (munge_without_credential_lines Examples.headless
                  ("a=ice-ufrag:Zq1x" ++ JS.nl ++ "v=0" ++ JS.nl) "0123abcd"
                  eq_refl ltac:(discriminate)));
    apply regexp_exec_None; reflexivity.
Defined.

(** *** The lines of a text *)

Lemma lines_nonempty :
  forall s : string, exists l ls, Spec.lines s = l :: ls.
Proof.
  destruct s as [|c s]; simpl.
  - eexists _, _. reflexivity.
  - destruct (Ascii.eqb c JS.LF); [eexists _, _; reflexivity|].
    destruct (Spec.lines s); eexists _, _; reflexivity.
Qed.

Lemma lines_LF :
  forall s : string, Spec.lines (String JS.LF s) = "" :: Spec.lines s.
Proof. reflexivity. Qed.

Lemma lines_other :
  forall (c : ascii) (s l : string) (ls : list string),
    Ascii.eqb c JS.LF = false ->
    Spec.lines s = l :: ls ->
    Spec.lines (String c s) = String c l :: ls.
Proof.
  intros c s l ls Hc Hs. cbn [Spec.lines]. rewrite Hc, Hs. reflexivity.
Qed.

Lemma lines_app_LF :
  forall a r : string,
    Spec.contains JS.LF a = false ->
    Spec.lines (a ++ String JS.LF r) = a :: Spec.lines r.
Proof.
  induction a as [|c a IH]; intros r Ha.
  - reflexivity.
  - cbn [Spec.contains] in Ha. apply orb_false_iff in Ha. destruct Ha as [Hc Ha].
    change (String c a ++ String JS.LF r) with (String c (a ++ String JS.LF r)).
    apply lines_other; [exact Hc | apply IH; exact Ha].
Qed.

Lemma lines_no_LF :
  forall a : string, Spec.contains JS.LF a = false -> Spec.lines a = [a].
Proof.
  induction a as [|c a IH]; intros Ha.
  - reflexivity.
  - cbn [Spec.contains] in Ha. apply orb_false_iff in Ha. destruct Ha as [Hc Ha].
    apply lines_other; [exact Hc | apply IH; exact Ha].
Qed.

Lemma lines_inv :
  forall (s l : string) (ls : list string),
    Spec.lines s = l :: ls ->
    Spec.contains JS.LF l = false
    /\ ((ls = [] /\ s = l)
        \/ exists r, s = l ++ String JS.LF r /\ ls = Spec.lines r).
Proof.
  induction s as [|c s IH]; intros l ls H.
  - inversion H; subst. split; [reflexivity | left; split; reflexivity].
  - cbn [Spec.lines] in H. destruct (Ascii.eqb_spec c JS.LF) as [->|Hc].
    + inversion H; subst. split; [reflexivity|].
      right. exists s. split; reflexivity.
    + destruct (Spec.lines s) as [|l' ls'] eqn:E.
      * destruct (lines_nonempty s) as [x [xs Hx]]. congruence.
      * inversion H; subst. destruct (IH _ _ eq_refl) as [Hl Hs].
        apply Ascii.eqb_neq in Hc. split.
        -- cbn [Spec.contains]. rewrite Hc, Hl. reflexivity.
        -- destruct Hs as [[-> ->]|[r [-> ->]]].
           ++ left. split; reflexivity.
           ++ right. exists r. split; reflexivity.
Qed.

Lemma concat_cons :
  forall (sep x y : string) (ys : list string),
    String.concat sep (x :: y :: ys) = x ++ sep ++ String.concat sep (y :: ys).
Proof. reflexivity. Qed.

Lemma concat_lines :
  forall s : string, String.concat JS.nl (Spec.lines s) = s.
Proof.
  induction s as [|c s IH].
  - reflexivity.
  - cbn [Spec.lines]. destruct (lines_nonempty s) as [l [ls E]].
    rewrite E in *. destruct (Ascii.eqb_spec c JS.LF) as [->|Hc].
    + rewrite concat_cons, IH. reflexivity.
    + destruct ls as [|l' ls].
      * simpl in *. rewrite IH. reflexivity.
      * rewrite concat_cons in *. rewrite <- IH. reflexivity.
Qed.

Lemma lines_injective :
  forall s t : string, Spec.lines s = Spec.lines t -> s = t.
Proof.
  intros s t H. rewrite <- (concat_lines s), <- (concat_lines t), H.
  reflexivity.
Qed.

Lemma delimited_line_has_LF :
  forall lit s : string,
    Spec.has_delimited_line lit s -> Spec.contains JS.LF s = true.
Proof.
  intros lit s [pre [mid [post ->]]].
  rewrite contains_app. apply orb_true_iff. right. reflexivity.
Qed.

Lemma replace_no_LF :
  forall lit replacement s : string,
    Spec.contains JS.LF s = false -> JS.replace lit replacement s = s.
Proof.
  intros lit replacement s Hs. apply replace_without_line. intros H.
  apply delimited_line_has_LF in H. congruence.
Qed.

Lemma GetSubstitution_plain :
  forall matched pre post t : string,
    Spec.contains "$" t = false ->
    JS.GetSubstitution matched pre post t = t.
Proof.
  induction t as [|c t IH]; intros Ht.
  - reflexivity.
  - cbn [Spec.contains] in Ht. apply orb_false_iff in Ht. destruct Ht as [Hc Ht].
    cbn [JS.GetSubstitution]. rewrite Hc, (IH Ht). reflexivity.
Qed.

Lemma replace_cons :
  forall (lit replacement : string) (c : ascii) (s : string),
    Spec.contains "$" replacement = false ->
    JS.replace lit replacement (String c s)
    = match JS.match_here lit (String c s) with
      | Some (_, rest) => replacement ++ rest
      | None => String c (JS.replace lit replacement s)
      end.
Proof.
  intros lit replacement c s Hr. unfold JS.replace. cbn [JS.regexp_exec].
  destruct (JS.match_here lit (String c s)) as [[m rest]|].
  - rewrite GetSubstitution_plain by exact Hr. reflexivity.
  - destruct (JS.regexp_exec lit s) as [[[pre m] post]|]; [|reflexivity].
    rewrite !GetSubstitution_plain by exact Hr. reflexivity.
Qed.

Lemma rewrite_first_line_skip :
  forall (lit ufrag l : string) (rest : list string),
    JS.startsWith l lit = false ->
    Spec.rewrite_first_line lit ufrag (l :: rest)
    = l :: Spec.rewrite_first_line lit ufrag rest.
Proof.
  intros lit ufrag l rest H. destruct rest as [|r rest]; [reflexivity|].
  cbn [Spec.rewrite_first_line]. rewrite H. reflexivity.
Qed.

Lemma rewrite_first_line_hit :
  forall (lit ufrag l r : string) (rest : list string),
    JS.startsWith l lit = true ->
    Spec.rewrite_first_line lit ufrag (l :: r :: rest)
    = (lit ++ ufrag) :: r :: rest.
Proof.
  intros lit ufrag l r rest H. cbn [Spec.rewrite_first_line]. rewrite H.
  reflexivity.
Qed.

Lemma rewrite_first_line_cons :
  forall (lit ufrag l : string) (rest : list string),
    exists l' rest',
      Spec.rewrite_first_line lit ufrag (l :: rest) = l' :: rest'.
Proof.
  intros lit ufrag l rest. destruct rest as [|r rest].
  - eexists _, _. reflexivity.
  - cbn [Spec.rewrite_first_line]. destruct (JS.startsWith l lit);
      eexists _, _; reflexivity.
Qed.

(** The first line of a text that does not start with [lit] does not
    start with it either. *)
Lemma first_line_startsWith :
  forall (lit s l : string) (ls : list string),
    JS.strip_prefix lit s = None ->
    Spec.lines s = l :: ls ->
    JS.startsWith l lit = false.
Proof.
  intros lit s l ls Hs Hl. unfold JS.startsWith.
  destruct (JS.strip_prefix lit l) as [t|] eqn:E; [|reflexivity].
  exfalso. apply strip_prefix_Some in E. subst l.
  destruct (lines_inv _ _ _ Hl) as [_ [[_ ->]|[r [-> _]]]].
  - rewrite strip_prefix_app in Hs. discriminate.
  - rewrite append_assoc, strip_prefix_app in Hs. discriminate.
Qed.

Section ReplaceLines.

Variables lit ufrag : string.
Hypothesis lit_no_LF : Spec.contains JS.LF lit = false.
Hypothesis lit_no_dollar : Spec.contains "$" lit = false.
Hypothesis ufrag_no_LF : Spec.contains JS.LF ufrag = false.
Hypothesis ufrag_no_dollar : Spec.contains "$" ufrag = false.

Lemma replacement_no_dollar :
  Spec.contains "$" (JS.nl ++ lit ++ ufrag ++ JS.nl) = false.
Proof.
  rewrite !contains_app, lit_no_dollar, ufrag_no_dollar. reflexivity.
Qed.

(** On the lines of the text, the replacement rewrites the first line
    that starts with [lit] among those that have a newline on both
    sides. *)
Lemma replace_lines :
  forall s : string,
    Spec.lines (JS.replace lit (JS.nl ++ lit ++ ufrag ++ JS.nl) s)
    = match Spec.lines s with
      | first :: rest => first :: Spec.rewrite_first_line lit ufrag rest
      | [] => []
      end.
Proof.
  induction s as [|c s IH].
  - reflexivity.
  - rewrite replace_cons by exact replacement_no_dollar.
    rewrite match_here_cons.
    destruct (Ascii.eqb_spec JS.LF c) as [<-|Hc].
    + rewrite lines_LF.
      destruct (JS.strip_prefix lit s) as [t|] eqn:Ep.
      * apply strip_prefix_Some in Ep. subst s.
        destruct (JS.until_newline t) as [[mid rest]|] eqn:En.
        -- apply until_newline_Some in En. destruct En as [-> Hmid].
           replace ((JS.nl ++ lit ++ ufrag ++ JS.nl) ++ rest)
             with (String JS.LF ((lit ++ ufrag) ++ String JS.LF rest))
             by (rewrite !append_assoc; reflexivity).
           replace (lit ++ mid ++ JS.nl ++ rest)
             with ((lit ++ mid) ++ String JS.LF rest)
             by (rewrite !append_assoc; reflexivity).
           rewrite lines_LF, !lines_app_LF
             by (rewrite contains_app, lit_no_LF; assumption).
           destruct (lines_nonempty rest) as [l [ls ->]].
           rewrite rewrite_first_line_hit by apply startsWith_app.
           reflexivity.
        -- apply until_newline_None in En.
           assert (Hs : Spec.contains JS.LF (lit ++ t) = false)
             by (rewrite contains_app, lit_no_LF; exact En).
           rewrite replace_no_LF by exact Hs.
           rewrite lines_LF, (lines_no_LF _ Hs). reflexivity.
      * rewrite lines_LF, IH.
        destruct (lines_nonempty s) as [l [ls E]]. rewrite E.
        rewrite (rewrite_first_line_skip _ _ _ _
                   (first_line_startsWith _ _ _ _ Ep E)).
        reflexivity.
    + assert (Hc' : Ascii.eqb c JS.LF = false)
        by (apply Ascii.eqb_neq; congruence).
      destruct (lines_nonempty s) as [l [ls E]].
      rewrite (lines_other _ _ _ _ Hc' E).
      rewrite E in IH. rewrite (lines_other _ _ _ _ Hc' IH). reflexivity.
Qed.

End ReplaceLines.

(** *** The two rewritings do not interfere *)

Lemma ufrag_line_is_no_pwd_line :
  forall l : string,
    JS.startsWith l "a=ice-ufrag:" = true ->
    JS.startsWith l "a=ice-pwd:" = false.
Proof.
  intros l H. unfold JS.startsWith in H.
  destruct (JS.strip_prefix "a=ice-ufrag:" l) as [t|] eqn:E; [|discriminate].
  apply strip_prefix_Some in E. subst l. reflexivity.
Qed.

Lemma pwd_line_is_no_ufrag_line :
  forall l : string,
    JS.startsWith l "a=ice-pwd:" = true ->
    JS.startsWith l "a=ice-ufrag:" = false.
Proof.
  intros l H. unfold JS.startsWith in H.
  destruct (JS.strip_prefix "a=ice-pwd:" l) as [t|] eqn:E; [|discriminate].
  apply strip_prefix_Some in E. subst l. reflexivity.
Qed.

Lemma rewrite_first_line_idempotent :
  forall (lit ufrag : string) (ls : list string),
    Spec.rewrite_first_line lit ufrag (Spec.rewrite_first_line lit ufrag ls)
    = Spec.rewrite_first_line lit ufrag ls.
Proof.
  intros lit ufrag. induction ls as [|l rest IH]; [reflexivity|].
  destruct rest as [|r rest]; [reflexivity|].
  destruct (JS.startsWith l lit) eqn:E.
  - rewrite (rewrite_first_line_hit _ _ _ _ _ E).
    apply rewrite_first_line_hit, startsWith_app.
  - rewrite (rewrite_first_line_skip _ _ _ _ E).
    rewrite (rewrite_first_line_skip _ _ _ _ E), IH. reflexivity.
Qed.

Lemma rewrite_credentials_cons :
  forall (ufrag : string) (ud pd : bool) (l r : string) (rest : list string),
    Spec.rewrite_credentials ufrag ud pd (l :: r :: rest)
    = if negb ud && JS.startsWith l "a=ice-ufrag:" then
        ("a=ice-ufrag:" ++ ufrag)
          :: Spec.rewrite_credentials ufrag true pd (r :: rest)
      else if negb pd && JS.startsWith l "a=ice-pwd:" then
        ("a=ice-pwd:" ++ ufrag)
          :: Spec.rewrite_credentials ufrag ud true (r :: rest)
      else l :: Spec.rewrite_credentials ufrag ud pd (r :: rest).
Proof. reflexivity. Qed.

Lemma rewrite_credentials_done :
  forall (ufrag : string) (ls : list string),
    Spec.rewrite_credentials ufrag true true ls = ls.
Proof.
  intros ufrag. induction ls as [|l rest IH]; [reflexivity|].
  destruct rest as [|r rest]; [reflexivity|].
  rewrite rewrite_credentials_cons, IH. reflexivity.
Qed.

Lemma rewrite_credentials_pwd :
  forall (ufrag : string) (ls : list string),
    Spec.rewrite_credentials ufrag true false ls
    = Spec.rewrite_first_line "a=ice-pwd:" ufrag ls.
Proof.
  intros ufrag. induction ls as [|l rest IH]; [reflexivity|].
  destruct rest as [|r rest]; [reflexivity|].
  rewrite rewrite_credentials_cons, IH, rewrite_credentials_done.
  cbn [negb andb].
  destruct (JS.startsWith l "a=ice-pwd:") eqn:Ep.
  - rewrite (rewrite_first_line_hit _ _ _ _ _ Ep). reflexivity.
  - rewrite (rewrite_first_line_skip _ _ _ _ Ep). reflexivity.
Qed.

Lemma rewrite_credentials_ufrag :
  forall (ufrag : string) (ls : list string),
    Spec.rewrite_credentials ufrag false true ls
    = Spec.rewrite_first_line "a=ice-ufrag:" ufrag ls.
Proof.
  intros ufrag. induction ls as [|l rest IH]; [reflexivity|].
  destruct rest as [|r rest]; [reflexivity|].
  rewrite rewrite_credentials_cons, IH, rewrite_credentials_done.
  cbn [negb andb].
  destruct (JS.startsWith l "a=ice-ufrag:") eqn:Eu.
  - rewrite (rewrite_first_line_hit _ _ _ _ _ Eu). reflexivity.
  - rewrite (rewrite_first_line_skip _ _ _ _ Eu). reflexivity.
Qed.

(** The single pass of the specification is the ice-ufrag rewriting
    followed by the ice-pwd rewriting. *)
Lemma rewrite_credentials_split :
  forall (ufrag : string) (ls : list string),
    Spec.rewrite_credentials ufrag false false ls
    = Spec.rewrite_first_line "a=ice-pwd:" ufrag
        (Spec.rewrite_first_line "a=ice-ufrag:" ufrag ls).
Proof.
  intros ufrag. induction ls as [|l rest IH]; [reflexivity|].
  destruct rest as [|r rest]; [reflexivity|].
  rewrite rewrite_credentials_cons, IH.
  rewrite rewrite_credentials_pwd, rewrite_credentials_ufrag.
  cbn [negb andb].
  destruct (JS.startsWith l "a=ice-ufrag:") eqn:Eu.
  - rewrite (rewrite_first_line_hit _ _ _ _ _ Eu).
    rewrite (rewrite_first_line_skip "a=ice-pwd:" _ ("a=ice-ufrag:" ++ ufrag))
      by reflexivity.
    reflexivity.
  - rewrite (rewrite_first_line_skip _ _ _ _ Eu).
    destruct (rewrite_first_line_cons "a=ice-ufrag:" ufrag r rest)
      as [r' [rest' E]].
    destruct (JS.startsWith l "a=ice-pwd:") eqn:Ep.
    + rewrite E, (rewrite_first_line_hit _ _ _ _ _ Ep). reflexivity.
    + rewrite (rewrite_first_line_skip _ _ _ _ Ep). reflexivity.
Qed.

(** The two rewritings commute: neither makes or unmakes a line of the
    other kind. *)
Lemma rewrite_first_line_commute :
  forall (ufrag : string) (ls : list string),
    Spec.rewrite_first_line "a=ice-ufrag:" ufrag
      (Spec.rewrite_first_line "a=ice-pwd:" ufrag ls)
    = Spec.rewrite_first_line "a=ice-pwd:" ufrag
        (Spec.rewrite_first_line "a=ice-ufrag:" ufrag ls).
Proof.
  intros ufrag. induction ls as [|l rest IH]; [reflexivity|].
  destruct rest as [|r rest]; [reflexivity|].
  destruct (rewrite_first_line_cons "a=ice-ufrag:" ufrag r rest)
    as [ru [restu Eru]].
  destruct (rewrite_first_line_cons "a=ice-pwd:" ufrag r rest)
    as [rp [restp Erp]].
  destruct (JS.startsWith l "a=ice-ufrag:") eqn:Eu.
  - pose proof (ufrag_line_is_no_pwd_line _ Eu) as Ep.
    rewrite (rewrite_first_line_hit _ _ _ _ _ Eu).
    rewrite (rewrite_first_line_skip _ _ _ _ Ep).
    rewrite (rewrite_first_line_skip "a=ice-pwd:" _ ("a=ice-ufrag:" ++ ufrag))
      by reflexivity.
    rewrite Erp, (rewrite_first_line_hit _ _ _ _ _ Eu). reflexivity.
  - rewrite (rewrite_first_line_skip _ _ _ _ Eu).
    destruct (JS.startsWith l "a=ice-pwd:") eqn:Ep.
    + rewrite (rewrite_first_line_hit _ _ _ _ _ Ep).
      rewrite (rewrite_first_line_skip "a=ice-ufrag:" _ ("a=ice-pwd:" ++ ufrag))
        by reflexivity.
      rewrite Eru, (rewrite_first_line_hit _ _ _ _ _ Ep). reflexivity.
    + rewrite (rewrite_first_line_skip _ _ _ _ Ep).
      rewrite (rewrite_first_line_skip _ _ _ _ Eu).
      rewrite (rewrite_first_line_skip _ _ _ _ Ep), IH. reflexivity.
Qed.

Lemma rewrite_credentials_once :
  forall (ufrag : string) (ls : list string),
    Spec.rewrite_credentials ufrag false false
      (Spec.rewrite_credentials ufrag false false ls)
    = Spec.rewrite_credentials ufrag false false ls.
Proof.
  intros ufrag ls. rewrite !rewrite_credentials_split.
  rewrite (rewrite_first_line_commute ufrag
             (Spec.rewrite_first_line "a=ice-ufrag:" ufrag ls)).
  rewrite !rewrite_first_line_idempotent. reflexivity.
Qed.

Lemma mungeIceCredentials_idempotent :
  forall (ufrag : string) (ls : list string),
    Spec.mungeIceCredentials ufrag (Spec.mungeIceCredentials ufrag ls)
    = Spec.mungeIceCredentials ufrag ls.
Proof.
  intros ufrag [|first rest]; [reflexivity|].
  cbn [Spec.mungeIceCredentials]. rewrite rewrite_credentials_once.
  reflexivity.
Qed.

(** The body that [munge] produces, line by line. *)
Lemma munge_body_lines :
  forall body ufrag : string,
    Spec.contains JS.LF ufrag = false ->
    Spec.contains "$" ufrag = false ->
    Spec.lines
      (JS.replace "a=ice-pwd:" (JS.nl ++ "a=ice-pwd:" ++ ufrag ++ JS.nl)
         (JS.replace "a=ice-ufrag:"
            (JS.nl ++ "a=ice-ufrag:" ++ ufrag ++ JS.nl) body))
    = Spec.mungeIceCredentials ufrag (Spec.lines body).
Proof.
  intros body ufrag HLF Hdollar.
  rewrite (replace_lines "a=ice-pwd:" ufrag eq_refl eq_refl HLF Hdollar).
  rewrite (replace_lines "a=ice-ufrag:" ufrag eq_refl eq_refl HLF Hdollar).
  destruct (lines_nonempty body) as [first [rest ->]].
  cbn [Spec.mungeIceCredentials]. rewrite rewrite_credentials_split.
  reflexivity.
Qed.

(** C4 (amended).  For a ufrag without newline and without dollar sign,
    [munge] on a non-empty body succeeds; on the lines of the body it
    rewrites the first ice-ufrag line and the first ice-pwd line among those
    with a newline on both sides so that they carry the ufrag, and keeps
    every other line; munging the result again with the same ufrag leaves
    it as it is. *)
Theorem munge_rewrites_first_credentials :
  forall (desc : Sdp.RTCSessionDescriptionInit) (body ufrag : string),
    Sdp.sdp desc = Some body ->
    body <> "" ->
    Spec.contains JS.LF ufrag = false ->
    Spec.contains "$" ufrag = false ->
    exists body',
      let desc' := {| Sdp.type := Sdp.type desc; Sdp.sdp := Some body' |} in
      Sdp.munge desc ufrag = (desc', Ok desc')
      /\ Spec.lines body' = Spec.mungeIceCredentials ufrag (Spec.lines body)
      /\ Sdp.munge desc' ufrag = (desc', Ok desc').
Proof.
  intros desc body ufrag Hsdp Hne HLF Hdollar.
  pose (body' :=
          JS.replace "a=ice-pwd:" (JS.nl ++ "a=ice-pwd:" ++ ufrag ++ JS.nl)
            (JS.replace "a=ice-ufrag:"
               (JS.nl ++ "a=ice-ufrag:" ++ ufrag ++ JS.nl) body)).
  assert (Hne' : body' <> "")
    by (apply (replace_nonempty "a=ice-pwd:"),
              (replace_nonempty "a=ice-ufrag:"); exact Hne).
  assert (Hagain :
            JS.replace "a=ice-pwd:" (JS.nl ++ "a=ice-pwd:" ++ ufrag ++ JS.nl)
              (JS.replace "a=ice-ufrag:"
                 (JS.nl ++ "a=ice-ufrag:" ++ ufrag ++ JS.nl) body')
            = body').
  { apply lines_injective. rewrite munge_body_lines by assumption.
    unfold body'. rewrite munge_body_lines by assumption.
    apply mungeIceCredentials_idempotent. }
  exists body'. cbv zeta. split; [|split].
  - apply (munge_with_body _ _ _ Hsdp Hne).
  - apply munge_body_lines; assumption.
  - rewrite (munge_with_body
               {| Sdp.type := Sdp.type desc; Sdp.sdp := Some body' |}
               body' ufrag eq_refl Hne').
    cbv zeta. cbn [Sdp.type]. rewrite Hagain. reflexivity.
Qed.

Lemma munge_rewrites_first_credentials_witness :
  exists body',
    Sdp.munge Examples.offer "0123abcd"
    = ({| Sdp.type := Sdp.offer; Sdp.sdp := Some body' |},
       Ok {| Sdp.type := Sdp.offer; Sdp.sdp := Some body' |})
    /\ Spec.lines body'
       = ["v=0"; "a=ice-ufrag:0123abcd"; "a=ice-pwd:0123abcd";
          "a=ice-ufrag:other"; ""]
    /\ Sdp.munge {| Sdp.type := Sdp.offer; Sdp.sdp := Some body' |} "0123abcd"
       = ({| Sdp.type := Sdp.offer; Sdp.sdp := Some body' |},
          Ok {| Sdp.type := Sdp.offer; Sdp.sdp := Some body' |}).
Proof.
  destruct (munge_rewrites_first_credentials Examples.offer
              Examples.offer_body "0123abcd" eq_refl ltac:(discriminate)
              eq_refl eq_refl) as [body' [H1 [H2 H3]]].
  exists body'. repeat split; [exact H1 | exact H2 | exact H3].
Defined.

(** C4 as stated fails: the replacement text of [String.prototype.replace]
    gives the dollar sign a meaning, so with the ufrag "$&" the first
    ice-ufrag line comes to carry the text it replaces instead of the
    ufrag, and a second munging changes the body again; a ufrag with a
    newline is not idempotent either. *)
Lemma munge_not_idempotent_for_every_ufrag :
  let once := fst (Sdp.munge Examples.offer "$&") in
  let twice := fst (Sdp.munge once "$&") in
  let once' := fst (Sdp.munge Examples.offer ("a" ++ JS.nl ++ "b")) in
  let twice' := fst (Sdp.munge once' ("a" ++ JS.nl ++ "b")) in
  Sdp.sdp once
  = Some ("v=0" ++ JS.nl ++ "a=ice-ufrag:" ++ JS.nl ++ "a=ice-ufrag:Zq1x"
          ++ JS.nl ++ JS.nl ++ "a=ice-pwd:" ++  JS.nl ++ "a=ice-pwd:secret"
          ++ JS.nl ++ JS.nl ++ "a=ice-ufrag:other" ++ JS.nl)
  /\ twice <> once
  /\ twice' <> once'.
Proof.
  cbv zeta. split; [reflexivity|]. split; intros H; vm_compute in H;
    discriminate H.
Qed.

(** ** Fingerprint derivation *)

Lemma toString16_padStart :
  forall b : byte, JS.padStart 2 "0" (JS.toString16 b) = Spec.hex_pair b.
Proof. destruct b; reflexivity. Qed.

Lemma toUpperCase_hex_pair :
  forall b : byte, JS.toUpperCase (Spec.hex_pair b) = Spec.HEX_pair b.
Proof. destruct b; reflexivity. Qed.

Lemma matches_hex_pair :
  forall (b : byte) (s : string),
    JS.matches_dot_1_2 (Spec.hex_pair b ++ s)
    = Spec.hex_pair b :: JS.matches_dot_1_2 s.
Proof. destruct b; reflexivity. Qed.

Lemma fold_hex :
  forall (d : bytes) (acc : string),
    fold_left (fun str byte => str ++ JS.padStart 2 "0" (JS.toString16 byte))
      d acc
    = acc ++ Spec.hex d.
Proof.
  induction d as [|b d IH]; intros acc; cbn [fold_left Spec.hex].
  - rewrite append_nil_r. reflexivity.
  - rewrite IH, toString16_padStart, append_assoc. reflexivity.
Qed.

Lemma matches_hex :
  forall d : bytes,
    JS.matches_dot_1_2 (Spec.hex d) = List.map Spec.hex_pair d.
Proof.
  induction d as [|b d IH]; [reflexivity|].
  cbn [Spec.hex List.map]. rewrite matches_hex_pair, IH. reflexivity.
Qed.

Lemma toUpperCase_app :
  forall a b : string,
    JS.toUpperCase (a ++ b) = JS.toUpperCase a ++ JS.toUpperCase b.
Proof.
  unfold JS.toUpperCase.
  induction a as [|c a IH]; intros b; cbn [append JS.map]; [reflexivity|].
  rewrite IH. reflexivity.
Qed.

Lemma toUpperCase_join_hex :
  forall d : bytes,
    JS.toUpperCase (JS.join ":" (List.map Spec.hex_pair d))
    = String.concat ":" (List.map Spec.HEX_pair d).
Proof.
  unfold JS.join. induction d as [|b d IH]; [reflexivity|].
  destruct d as [|b' d].
  - apply toUpperCase_hex_pair.
  - cbn [List.map] in *. rewrite !concat_cons, !toUpperCase_app, IH.
    rewrite toUpperCase_hex_pair. reflexivity.
Qed.

Section Fingerprints.

Context {libs : Multiformats}.

(** What [certhashToFingerprint] makes of a decoded multihash with an
    allow-listed name and a non-empty digest. *)
Lemma fingerprint_of_multihash :
  forall (ma : Multiaddr) (certhash_value : string) (mh : bytes)
         (m : Multihash) (a : Spec.HashAlgorithm),
    Sdp.certhash ma = Ok certhash_value ->
    mbdecoder_decode certhash_value = Ok mh ->
    multihashes_decode mh = Ok m ->
    name m = Spec.multihash_name a ->
    digest m <> [] ->
    Sdp.certhashToFingerprint ma
    = Ok (Spec.display (Spec.tag a) (digest m), Spec.hex (digest m)).
Proof.
  intros ma cv mh m a Hc Hmb Hmh Hname Hd. unfold Sdp.certhashToFingerprint.
  rewrite Hc. cbn [bind]. rewrite Hmb. cbn [bind]. rewrite Hmh. cbn [bind].
  rewrite Hname, fold_hex. cbn [append].
  destruct (digest m) as [|b d] eqn:E; [contradiction|].
  assert (Hpairs : JS.match_dot_1_2 (Spec.hex (b :: d))
                   = Some (List.map Spec.hex_pair (b :: d)))
    by (unfold JS.match_dot_1_2; rewrite matches_hex; reflexivity).
  rewrite Hpairs. cbn [bind].
  destruct a; cbn [Spec.multihash_name String.eqb Ascii.eqb Bool.eqb bind];
    cbv beta; rewrite toUpperCase_join_hex; reflexivity.
Qed.

(** C2 (amended).  For an algorithm of the allow-list and a digest of its
    length, the fingerprint derived from a multibase text of the multihash
    encoding of the digest is the display string (the uppercase tag, a
    space, the bytes of the digest as uppercase hexadecimal pairs joined by
    colons) together with the digest as a lowercase hexadecimal string, two
    digits per byte. *)
Theorem certhashToFingerprint_roundtrip :
  Spec.multihash_roundtrip libs ->
  forall (ma : Multiaddr) (a : Spec.HashAlgorithm) (d mh : bytes)
         (certhash_value : string),
    List.length d = Spec.digest_length a ->
    multihashes_encode d (Spec.multihash_code a) = Ok mh ->
    mbdecoder_decode certhash_value = Ok mh ->
    Sdp.certhash ma = Ok certhash_value ->
    Sdp.certhashToFingerprint ma
    = Ok (Spec.display (Spec.tag a) d, Spec.hex d).
Proof.
  intros Hlib ma a d mh cv Hlen Henc Hmb Hc.
  destruct (Hlib a d mh Hlen Henc) as [m [Hmh [Hname Hd]]].
  rewrite <- Hd. apply (fingerprint_of_multihash ma cv mh m a); try assumption.
  rewrite Hd. intros ->. destruct a; discriminate.
Qed.

(** C5.  When the multihash that the certificate-hash component encodes
    names an algorithm outside the allow-list, the derivation throws the
    unsupported-hash-algorithm error with that name and returns nothing;
    for md5, sha2-256 and sha2-512 the display string is tagged MD5,
    SHA-256 and SHA-512. *)
Theorem certhashToFingerprint_allow_list :
  forall (ma : Multiaddr) (certhash_value : string) (mh : bytes)
         (m : Multihash),
    Sdp.certhash ma = Ok certhash_value ->
    mbdecoder_decode certhash_value = Ok mh ->
    multihashes_decode mh = Ok m ->
    (Spec.allow_listed (name m) = false ->
     Sdp.certhashToFingerprint ma
     = Throw (UnsupportedHashAlgorithmError (name m)))
    /\
    (forall a : Spec.HashAlgorithm,
        name m = Spec.multihash_name a ->
        digest m <> [] ->
        Sdp.certhashToFingerprint ma
        = Ok (Spec.tag a ++ " "
              ++ String.concat ":" (List.map Spec.HEX_pair (digest m)),
              Spec.hex (digest m))).
Proof.
  intros ma cv mh m Hc Hmb Hmh. split.
  - intros Hout. unfold Spec.allow_listed in Hout.
    apply orb_false_iff in Hout. destruct Hout as [Hout H512].
    apply orb_false_iff in Hout. destruct Hout as [Hmd5 H256].
    unfold Sdp.certhashToFingerprint.
    rewrite Hc. cbn [bind]. rewrite Hmb. cbn [bind]. rewrite Hmh. cbn [bind].
    rewrite Hmd5, H256, H512. reflexivity.
  - intros a Hname Hd.
    apply (fingerprint_of_multihash ma cv mh m a); assumption.
Qed.

End Fingerprints.

Lemma reference_multihash_roundtrip : Spec.multihash_roundtrip reference_codecs.
Proof.
  intros a d mh Hlen Henc.
  (* a digest of known length is a list of that many bytes, on which the
     reference encoder and decoder compute *)
  destruct a; cbn [Spec.digest_length] in Hlen;
    repeat (destruct d as [|? d]; [discriminate Hlen|]);
    (destruct d; [|discriminate Hlen]);
    vm_compute in Henc; inversion Henc; subst mh;
    eexists; (split; [vm_compute; reflexivity | split; reflexivity]).
Qed.

Lemma certhashToFingerprint_roundtrip_witness :
  Sdp.certhashToFingerprint Examples.address2
  = Ok (Spec.display "SHA-256" Examples.D, Spec.hex Examples.D).
Proof.
  apply (certhashToFingerprint_roundtrip reference_multihash_roundtrip
           Examples.address2 Spec.SHA_256 Examples.D Examples.F1 Examples.H);
    vm_compute; reflexivity.
Defined.

(** C2 as stated fails on its last part: the second component of the
    result is the digest as text, 64 hexadecimal digits for the 32 bytes of
    a SHA-256 digest, and not the bytes of the digest. *)
Lemma certhashToFingerprint_returns_hex_text :
  exists display fp,
    Sdp.certhashToFingerprint Examples.address2 = Ok (display, fp)
    /\ fp = "14a95ee4cef335c08e4360373545b71e9185665e58bf429ae5c3722488483ab5"
    /\ List.length Examples.D = 32%nat
    /\ uint8arrayFromString fp <> Examples.D.
Proof.
  eexists _, _. split; [reflexivity|]. split; [reflexivity|].
  split; [reflexivity|]. intros H. vm_compute in H. discriminate H.
Qed.

Lemma certhashToFingerprint_allow_list_witness :
  Sdp.certhashToFingerprint Examples.address2
  = Ok ("SHA-256 14:A9:5E:E4:CE:F3:35:C0:8E:43:60:37:35:45:B7:1E:91:85:66:5E:58:BF:42:9A:E5:C3:72:24:88:48:3A:B5",
        "14a95ee4cef335c08e4360373545b71e9185665e58bf429ae5c3722488483ab5")
  /\ Sdp.certhashToFingerprint Examples.sha1_address
     = Throw (UnsupportedHashAlgorithmError "sha1").
Proof.
  split.
  - refine (proj2 (certhashToFingerprint_allow_list Examples.address2
                     Examples.H Examples.F1
                     {| code := 0x12; name := "sha2-256"; length := 32;
                        digest := Examples.D |} _ _ _) Spec.SHA_256 _ _);
      try (vm_compute; reflexivity).
    discriminate.
  - refine (proj1 (certhashToFingerprint_allow_list Examples.sha1_address
                     "f11020a0b" [x11; x02; x0a; x0b]
                     {| code := 0x11; name := "sha1"; length := 2;
                        digest := [x0a; x0b] |} _ _ _) _);
      vm_compute; reflexivity.
Defined.

(** ** The Noise prologue *)

Lemma app_same_length :
  forall (a b c d : bytes),
    List.length a = List.length b ->
    (a ++ c)%list = (b ++ d)%list ->
    a = b.
Proof.
  induction a as [|x a IH]; intros [|y b] c d Hlen H;
    try discriminate Hlen; [reflexivity|].
  cbn in Hlen, H. inversion H; subst. f_equal.
  apply (IH b c d); [lia | assumption].
Qed.

Section Prologue.

Context {libs : Multiformats}.

(** The prologue once the checks on the local certificate have passed. *)
Lemma generateNoisePrologue_sha256 :
  forall (pc : Transport.RTCPeerConnection) (ma : Multiaddr)
         (cert : Transport.RTCCertificate)
         (certs : list Transport.RTCCertificate)
         (fp : Transport.RTCDtlsFingerprint)
         (fps : list Transport.RTCDtlsFingerprint)
         (v : string) (d : bytes),
    Transport.certificates (Transport.getConfiguration pc)
    = Some (cert :: certs) ->
    Transport.getFingerprints cert = fp :: fps ->
    Transport.value fp = Some v ->
    uint8arrayFromString_hex (JS.removeAll ":" v) = Ok d ->
    Transport.algorithm fp = Some "sha-256" ->
    Transport.generateNoisePrologue pc ma
    = (local <- multihashes_encode d multihashes_names_sha2_256 ;;
       certhash_value <- Sdp.certhash ma ;;
       remote <- mbdecoder_decode certhash_value ;;
       Ok (uint8arrayFromString "libp2p-webrtc-noise:" ++ local ++ remote)%list).
Proof.
  intros pc ma cert certs fp fps v d Hcerts Hfps Hv Hhex Halg.
  unfold Transport.generateNoisePrologue.
  rewrite Hcerts, Hfps, Hv. cbn [bind]. rewrite Hhex. cbn [bind].
  rewrite Halg. reflexivity.
Qed.

(** The digest text is decoded before the algorithm is looked at: when the
    hexadecimal decoder throws, that is what the prologue builder throws,
    whatever algorithm the fingerprint reports. *)
Lemma generateNoisePrologue_digest_not_hex :
  forall (pc : Transport.RTCPeerConnection) (ma : Multiaddr)
         (cert : Transport.RTCCertificate)
         (certs : list Transport.RTCCertificate)
         (fp : Transport.RTCDtlsFingerprint)
         (fps : list Transport.RTCDtlsFingerprint)
         (v : string) (e : WebRTCError),
    Transport.certificates (Transport.getConfiguration pc)
    = Some (cert :: certs) ->
    Transport.getFingerprints cert = fp :: fps ->
    Transport.value fp = Some v ->
    uint8arrayFromString_hex (JS.removeAll ":" v) = Throw e ->
    Transport.generateNoisePrologue pc ma = Throw e.
Proof.
  intros pc ma cert certs fp fps v e Hcerts Hfps Hv Hhex.
  unfold Transport.generateNoisePrologue.
  rewrite Hcerts, Hfps, Hv. cbn [bind]. rewrite Hhex. reflexivity.
Qed.


Lemma prologue_of_fingerprints :
  forall (pc : Transport.RTCPeerConnection) (ma : Multiaddr)
         (local remote : bytes),
    Spec.local_fingerprint pc local ->
    Spec.remote_fingerprint ma remote ->
    Transport.generateNoisePrologue pc ma
    = Ok (uint8arrayFromString "libp2p-webrtc-noise:" ++ local ++ remote)%list.
Proof.
  intros pc ma local remote
    [cert [certs [fp [fps [v [d [Hcerts [Hfps [Halg [Hv [Hhex Henc]]]]]]]]]]]
    [cv [Hc Hmb]].
  rewrite (generateNoisePrologue_sha256 pc ma cert certs fp fps v d)
    by assumption.
  rewrite Henc. cbn [bind]. rewrite Hc. cbn [bind]. rewrite Hmb. reflexivity.
Qed.

(** C1 (amended).  The prologue is the prefix "libp2p-webrtc-noise:"
    followed by the local fingerprint and then the remote fingerprint, in
    this fixed order and without sorting: with [F1] local and [F2] remote
    it is prefix, [F1], [F2]; with [F2] local and [F1] remote it is prefix,
    [F2], [F1], which is a different byte string when the two fingerprints
    differ and have the same length. *)
Theorem generateNoisePrologue_local_then_remote :
  forall (pc pc' : Transport.RTCPeerConnection) (ma ma' : Multiaddr)
         (F1 F2 : bytes),
    Spec.local_fingerprint pc F1 ->
    Spec.remote_fingerprint ma F2 ->
    Spec.local_fingerprint pc' F2 ->
    Spec.remote_fingerprint ma' F1 ->
    Transport.generateNoisePrologue pc ma
    = Ok (uint8arrayFromString "libp2p-webrtc-noise:" ++ F1 ++ F2)%list
    /\ Transport.generateNoisePrologue pc' ma'
       = Ok (uint8arrayFromString "libp2p-webrtc-noise:" ++ F2 ++ F1)%list
    /\ (List.length F1 = List.length F2 ->
        F1 <> F2 ->
        Transport.generateNoisePrologue pc ma
        <> Transport.generateNoisePrologue pc' ma').
Proof.
  intros pc pc' ma ma' F1 F2 Hl Hr Hl' Hr'.
  rewrite (prologue_of_fingerprints pc ma F1 F2 Hl Hr).
  rewrite (prologue_of_fingerprints pc' ma' F2 F1 Hl' Hr').
  repeat split. intros Hlen Hne Heq. apply Hne.
  assert (Happ : (F1 ++ F2)%list = (F2 ++ F1)%list)
    by (apply (app_inv_head (uint8arrayFromString "libp2p-webrtc-noise:"));
        congruence).
  exact (app_same_length F1 F2 F2 F1 Hlen Happ).
Qed.

End Prologue.

Lemma local_fingerprint_pc1 : Spec.local_fingerprint Examples.pc1 Examples.F1.
Proof.
  unfold Spec.local_fingerprint, Examples.pc1, Examples.connection,
    Examples.certificate.
  eexists _, _, _, _, _, Examples.D.
  repeat split; vm_compute; reflexivity.
Qed.

Lemma local_fingerprint_pc2 : Spec.local_fingerprint Examples.pc2 Examples.F2.
Proof.
  unfold Spec.local_fingerprint, Examples.pc2, Examples.connection,
    Examples.certificate.
  eexists _, _, _, _, _, Examples.D'.
  repeat split; vm_compute; reflexivity.
Qed.

Lemma remote_fingerprint_address2 :
  Spec.remote_fingerprint Examples.address2 Examples.F1.
Proof. exists Examples.H. split; vm_compute; reflexivity. Qed.

Lemma remote_fingerprint_address5 :
  Spec.remote_fingerprint Examples.address5 Examples.F2.
Proof. exists Examples.H'. split; vm_compute; reflexivity. Qed.



Lemma generateNoisePrologue_local_then_remote_witness :
  Transport.generateNoisePrologue Examples.pc1 Examples.address5
  = Ok (Examples.prologue_prefix ++ Examples.F1 ++ Examples.F2)%list
  /\ Transport.generateNoisePrologue Examples.pc2 Examples.address2
     = Ok (Examples.prologue_prefix ++ Examples.F2 ++ Examples.F1)%list
  /\ Transport.generateNoisePrologue Examples.pc1 Examples.address5
     <> Transport.generateNoisePrologue Examples.pc2 Examples.address2.
Proof.
  destruct (generateNoisePrologue_local_then_remote
              Examples.pc1 Examples.pc2 Examples.address5 Examples.address2
              Examples.F1 Examples.F2
              local_fingerprint_pc1 remote_fingerprint_address5
              local_fingerprint_pc2 remote_fingerprint_address2)
    as [H1 [H2 H3]].
  split; [exact H1 | split; [exact H2 | apply H3]].
  - reflexivity.
  - discriminate.
Defined.

(** C1 as stated fails: [F1] is below [F2] in byte order, yet with [F2]
    local and [F1] remote the prologue has [F2] first; building it the
    other way round gives another byte string. *)
Lemma generateNoisePrologue_not_sorted :
  Spec.bytes_ltb Examples.F1 Examples.F2 = true
  /\ Transport.generateNoisePrologue Examples.pc2 Examples.address2
     = Ok (Examples.prologue_prefix ++ Examples.F2 ++ Examples.F1)%list
  /\ Transport.generateNoisePrologue Examples.pc2 Examples.address2
     <> Ok (Examples.prologue_prefix ++ Examples.F1 ++ Examples.F2)%list
  /\ Transport.generateNoisePrologue Examples.pc1 Examples.address5
     <> Transport.generateNoisePrologue Examples.pc2 Examples.address2.
Proof.
  split; [reflexivity|]. split; [vm_compute; reflexivity|].
  split; intros H; vm_compute in H; discriminate H.
Qed.

(** *** The draft's ordering *)

(** The draft gives both ends the same prologue, whichever fingerprint is
    the local one. *)
Lemma draft_prologue_symmetric :
  forall a b : bytes,
    Draft.Uint8Array_toString a <> Draft.Uint8Array_toString b ->
    Draft.prologue a b = Draft.prologue b a.
Proof.
  intros a b Hne. unfold Draft.prologue, Draft.sort, String.ltb.
  rewrite (String.compare_antisym (Draft.Uint8Array_toString a)
             (Draft.Uint8Array_toString b)).
  destruct (String.compare (Draft.Uint8Array_toString b)
              (Draft.Uint8Array_toString a)) eqn:E; try reflexivity.
  apply String.compare_eq_iff in E. congruence.
Qed.

(** Its order is that of the decimal texts, not that of the bytes: 20 is
    below 100 as a byte and above it as a text. *)
Lemma draft_order_is_not_bytewise :
  Spec.bytes_ltb Examples.F1 Examples.F3 = true
  /\ Draft.prologue Examples.F1 Examples.F3
     = (Examples.prologue_prefix ++ Examples.F3 ++ Examples.F1)%list.
Proof. split; vm_compute; reflexivity. Qed.

(** ** The SDP synthesizer *)

Lemma toUpperCase_char_LF :
  forall c : ascii,
    Ascii.eqb (JS.toUpperCase_char c) JS.LF = Ascii.eqb c JS.LF.
Proof.
  intros [b0 b1 b2 b3 b4 b5 b6 b7].
  destruct b0, b1, b2, b3, b4, b5, b6, b7; reflexivity.
Qed.

Lemma contains_LF_toUpperCase :
  forall s : string,
    Spec.contains JS.LF (JS.toUpperCase s) = Spec.contains JS.LF s.
Proof.
  unfold JS.toUpperCase. induction s as [|c s IH]; [reflexivity|].
  cbn [JS.map Spec.contains]. rewrite toUpperCase_char_LF, IH. reflexivity.
Qed.

Lemma contains_LF_string_of_uint :
  forall d : Decimal.uint,
    Spec.contains JS.LF (NilEmpty.string_of_uint d) = false.
Proof.
  induction d; cbn [NilEmpty.string_of_uint Spec.contains];
    try rewrite IHd; reflexivity.
Qed.

Lemma contains_LF_Number_toString :
  forall n : N, Spec.contains JS.LF (JS.Number_toString n) = false.
Proof. intros n. apply contains_LF_string_of_uint. Qed.

(** A match of [.{1,2}] holds no line terminator. *)
Lemma matches_dot_no_LF :
  forall s : string,
    Forall (fun m => Spec.contains JS.LF m = false) (JS.matches_dot_1_2 s).
Proof.
  assert (H : forall s,
             Forall (fun m => Spec.contains JS.LF m = false)
               (JS.matches_dot_1_2 s)
             /\ forall c,
                 Forall (fun m => Spec.contains JS.LF m = false)
                   (JS.matches_dot_1_2 (String c s))).
  { induction s as [|d s [IHs IHc]].
    - split; [constructor|]. intros c. cbn [JS.matches_dot_1_2].
      unfold JS.is_line_terminator.
      destruct (Ascii.eqb c JS.LF) eqn:E; cbn [orb]; [constructor|].
      destruct (Ascii.eqb c JS.CR); repeat constructor.
      cbn [Spec.contains]. rewrite E. reflexivity.
    - split; [apply IHc|]. intros c.
      change (JS.matches_dot_1_2 (String c (String d s)))
        with (if JS.is_line_terminator c then JS.matches_dot_1_2 (String d s)
              else if JS.is_line_terminator d
                   then String c "" :: JS.matches_dot_1_2 s
                   else String c (String d "") :: JS.matches_dot_1_2 s).
      destruct (JS.is_line_terminator c) eqn:Ec; [apply IHc|].
      unfold JS.is_line_terminator in Ec. apply orb_false_iff in Ec.
      destruct Ec as [Ec _].
      destruct (JS.is_line_terminator d) eqn:Ed.
      + constructor; [|exact IHs]. cbn [Spec.contains]. rewrite Ec. reflexivity.
      + unfold JS.is_line_terminator in Ed. apply orb_false_iff in Ed.
        destruct Ed as [Ed _]. constructor; [|exact IHs].
        cbn [Spec.contains]. rewrite Ec, Ed. reflexivity. }
  intros s. apply H.
Qed.

Lemma contains_LF_join :
  forall (sep : string) (ls : list string),
    Spec.contains JS.LF sep = false ->
    Forall (fun m => Spec.contains JS.LF m = false) ls ->
    Spec.contains JS.LF (JS.join sep ls) = false.
Proof.
  intros sep ls Hsep H. unfold JS.join. induction H as [|l ls Hl Hls IH].
  - reflexivity.
  - destruct ls as [|l' ls]; [exact Hl|].
    rewrite concat_cons, !contains_app, Hl, Hsep, IH. reflexivity.
Qed.

Lemma contains_LF_ipv :
  forall ma : Multiaddr,
    Forall (fun n => Spec.contains JS.LF n = false) (protoNames ma) ->
    Spec.contains JS.LF (Sdp.ipv ma) = false.
Proof.
  intros ma H. unfold Sdp.ipv.
  destruct (find (fun proto => JS.startsWith proto "ip") (protoNames ma))
    as [proto|] eqn:E; [|reflexivity].
  apply find_some in E. destruct E as [Hin _].
  rewrite contains_LF_toUpperCase.
  rewrite Forall_forall in H. apply H. exact Hin.
Qed.

Lemma bind_Ok :
  forall (A B : Type) (r : result A) (k : A -> result B) (b : B),
    bind r k = Ok b -> exists a, r = Ok a /\ k a = Ok b.
Proof.
  intros A B [a|e] k b H; [|discriminate]. exists a. split; [reflexivity|exact H].
Qed.

Lemma lines_step :
  forall (s l r : string) (ls : list string),
    s = l ++ String JS.LF r ->
    Spec.contains JS.LF l = false ->
    Spec.lines r = ls ->
    Spec.lines s = l :: ls.
Proof.
  intros s l r ls -> Hl <-. apply lines_app_LF. exact Hl.
Qed.

Section Synthesizer.

Context {libs : Multiformats}.

(** The display string of a derived fingerprint spans no line break. *)
Lemma contains_LF_fingerprint :
  forall (ma : Multiaddr) (CERTFP fp : string),
    Sdp.certhashToFingerprint ma = Ok (CERTFP, fp) ->
    Spec.contains JS.LF CERTFP = false.
Proof.
  intros ma CERTFP fp H. unfold Sdp.certhashToFingerprint in H.
  apply bind_Ok in H. destruct H as [cv [_ H]].
  apply bind_Ok in H. destruct H as [mh [_ H]].
  apply bind_Ok in H. destruct H as [m [_ H]].
  apply bind_Ok in H. destruct H as [prefix [Hprefix H]].
  apply bind_Ok in H. destruct H as [pairs [Hpairs H]].
  inversion H; subst CERTFP fp; clear H.
  assert (Hp : Spec.contains JS.LF prefix = false).
  { destruct (name m =? "md5"); [inversion Hprefix; reflexivity|].
    destruct (name m =? "sha2-256"); [inversion Hprefix; reflexivity|].
    destruct (name m =? "sha2-512"); [inversion Hprefix; reflexivity|].
    discriminate. }
  rewrite contains_app, contains_LF_toUpperCase, Hp.
  cbn [orb append Spec.contains].
  change (Ascii.eqb " " JS.LF) with false. cbn [orb].
  rewrite contains_LF_toUpperCase.
  apply contains_LF_join; [reflexivity|].
  unfold JS.match_dot_1_2 in Hpairs.
  match type of Hpairs with
  | context [JS.matches_dot_1_2 ?s] =>
      pose proof (matches_dot_no_LF s) as Hall;
      destruct (JS.matches_dot_1_2 s); inversion Hpairs; subst; exact Hall
  end.
Qed.

(** The lines of the synthesized session description, in order. *)
Lemma ma2sdp_lines :
  forall (ma : Multiaddr) (ufrag : string) (o : MultiaddrOptions)
         (CERTFP fp : string),
    toOptions ma = Ok o ->
    Spec.contains JS.LF (host o) = false ->
    Forall (fun n => Spec.contains JS.LF n = false) (protoNames ma) ->
    Sdp.certhashToFingerprint ma = Ok (CERTFP, fp) ->
    Spec.contains JS.LF ufrag = false ->
    exists body,
      Sdp.ma2sdp ma ufrag = Ok body
      /\ Spec.lines body
         = [ "v=0";
             "o=- 0 0 IN " ++ Sdp.ipv ma ++ " " ++ host o;
             "s=-";
             "c=IN " ++ Sdp.ipv ma ++ " " ++ host o;
             "t=0 0";
             "a=ice-lite";
             "m=application " ++ JS.Number_toString (port o)
               ++ " UDP/DTLS/SCTP webrtc-datachannel";
             "a=mid:0";
             "a=setup:passive";
             "a=ice-ufrag:" ++ ufrag;
             "a=ice-pwd:" ++ ufrag;
             "a=fingerprint:" ++ CERTFP;
             "a=sctp-port:5000";
             "a=max-message-size:100000";
             "a=candidate:1467250027 1 UDP 1467250027 " ++ host o ++ " "
               ++ JS.Number_toString (port o) ++ " typ host"
               ++ String JS.CR "";
             "" ].
Proof.
  intros ma ufrag o CERTFP fp Hopts Hhost Hnames Hfp Hufrag.
  pose proof (contains_LF_ipv ma Hnames) as Hipv.
  pose proof (contains_LF_fingerprint ma CERTFP fp Hfp) as Hcert.
  pose proof (contains_LF_Number_toString (port o)) as Hport.
  unfold Sdp.ma2sdp, Sdp.ip, Sdp.port. rewrite Hopts. cbn [bind].
  rewrite Hfp. cbn [bind]. eexists. split; [reflexivity|].
  repeat
    match goal with
    | |- Spec.lines ?s = ?l :: ?ls =>
        eapply (lines_step s l);
        [ rewrite ?append_assoc; reflexivity
        | rewrite ?contains_app, ?Hhost, ?Hipv, ?Hcert, ?Hport, ?Hufrag;
          reflexivity
        | ]
    end.
  reflexivity.
Qed.

(** C3 (amended).  For an address whose certificate hash yields a
    fingerprint, whose host and protocol names span no line break, and a
    ufrag without newline, the synthesized description is an answer whose
    SDP text has exactly one ice-ufrag line and exactly one ice-pwd line,
    both carrying the ufrag, and exactly one fingerprint line, carrying the
    display string of the derived fingerprint. *)
Theorem fromMultiAddr_credentials_once :
  forall (ma : Multiaddr) (ufrag : string) (o : MultiaddrOptions)
         (CERTFP fp : string),
    toOptions ma = Ok o ->
    Spec.contains JS.LF (host o) = false ->
    Forall (fun n => Spec.contains JS.LF n = false) (protoNames ma) ->
    Sdp.certhashToFingerprint ma = Ok (CERTFP, fp) ->
    Spec.contains JS.LF ufrag = false ->
    exists body,
      Sdp.fromMultiAddr ma ufrag
      = Ok {| Sdp.type := Sdp.answer; Sdp.sdp := Some body |}
      /\ Spec.attribute_lines "a=ice-ufrag:" body = ["a=ice-ufrag:" ++ ufrag]
      /\ Spec.attribute_lines "a=ice-pwd:" body = ["a=ice-pwd:" ++ ufrag]
      /\ Spec.attribute_lines "a=fingerprint:" body
         = ["a=fingerprint:" ++ CERTFP].
Proof.
  intros ma ufrag o CERTFP fp Hopts Hhost Hnames Hfp Hufrag.
  destruct (ma2sdp_lines ma ufrag o CERTFP fp Hopts Hhost Hnames Hfp Hufrag)
    as [body [Hbody Hlines]].
  exists body. unfold Sdp.fromMultiAddr. rewrite Hbody. cbn [bind].
  split; [reflexivity|]. unfold Spec.attribute_lines. rewrite Hlines.
  repeat split; reflexivity.
Qed.

End Synthesizer.

Lemma fromMultiAddr_credentials_once_witness :
  exists body,
    Sdp.fromMultiAddr Examples.address2 "0123abcd"
    = Ok {| Sdp.type := Sdp.answer; Sdp.sdp := Some body |}
    /\ Spec.attribute_lines "a=ice-ufrag:" body = ["a=ice-ufrag:0123abcd"]
    /\ Spec.attribute_lines "a=ice-pwd:" body = ["a=ice-pwd:0123abcd"]
    /\ Spec.attribute_lines "a=fingerprint:" body
       = ["a=fingerprint:SHA-256 14:A9:5E:E4:CE:F3:35:C0:8E:43:60:37:35:45:B7:1E:91:85:66:5E:58:BF:42:9A:E5:C3:72:24:88:48:3A:B5"].
Proof.
  refine (fromMultiAddr_credentials_once Examples.address2 "0123abcd"
            {| host := "1.2.3.4"; port := 1234 |} _ _ eq_refl eq_refl _ _
            eq_refl).
  - repeat constructor.
  - vm_compute. reflexivity.
Defined.

(** C3 as stated fails for a ufrag that spans lines: the text then has
    more than one ice-ufrag line. *)
Lemma fromMultiAddr_ufrag_with_newline :
  exists body,
    Sdp.fromMultiAddr Examples.address2 ("x" ++ JS.nl ++ "a=ice-ufrag:y")
    = Ok {| Sdp.type := Sdp.answer; Sdp.sdp := Some body |}
    /\ Spec.attribute_lines "a=ice-ufrag:" body
       = ["a=ice-ufrag:x"; "a=ice-ufrag:y"; "a=ice-ufrag:y"].
Proof.
  eexists. split; vm_compute; reflexivity.
Qed.

(** * Further properties *)

(** ** The address codec *)

Lemma find_skips :
  forall (f : string -> bool) (before : list string) (l : list string),
    (forall n, In n before -> f n = false) ->
    find f (before ++ l)%list = find f l.
Proof.
  intros f. induction before as [|n before IH]; intros l H; [reflexivity|].
  cbn [app find]. rewrite (H n (or_introl eq_refl)).
  apply IH. intros m Hm. apply H. right. exact Hm.
Qed.

(** X1.  [ipv] answers with the first protocol name that starts with "ip",
    in upper case, whatever that protocol is, and with "IP6" when the
    address has no such protocol. *)
Theorem ipv_first_ip_protocol :
  forall ma : Multiaddr,
    ((forall n, In n (protoNames ma) -> JS.startsWith n "ip" = false) ->
     Sdp.ipv ma = "IP6")
    /\
    (forall (before : list string) (p : string) (after : list string),
        protoNames ma = (before ++ p :: after)%list ->
        (forall n, In n before -> JS.startsWith n "ip" = false) ->
        JS.startsWith p "ip" = true ->
        Sdp.ipv ma = JS.toUpperCase p).
Proof.
  intros ma. unfold Sdp.ipv. split.
  - intros Hno.
    destruct (find (fun proto => JS.startsWith proto "ip") (protoNames ma))
      as [p|] eqn:E; [|reflexivity].
    apply find_some in E. destruct E as [Hin Hp].
    rewrite (Hno p Hin) in Hp. discriminate.
  - intros before p after Hnames Hbefore Hp.
    rewrite Hnames, (find_skips _ before _ Hbefore). cbn [find].
    rewrite Hp. reflexivity.
Qed.

Lemma ipv_first_ip_protocol_witness :
  Sdp.ipv Cases.dns_address = "IP6" /\ Sdp.ipv Examples.address2 = "IP4".
Proof.
  split.
  - apply (proj1 (ipv_first_ip_protocol Cases.dns_address)).
    intros n Hin. cbn in Hin.
    repeat (destruct Hin as [<-|Hin]; [reflexivity|]). contradiction.
  - apply (proj2 (ipv_first_ip_protocol Examples.address2)
             [] "ip4" ["udp"; "webrtc"; "certhash"; "p2p"]).
    + reflexivity.
    + intros n [].
    + reflexivity.
Defined.

Lemma filter_finds_code :
  forall (tups : list (Z * option string)) (c : Z),
    In c (List.map fst tups) ->
    exists v rest,
      List.filter (fun tup => Z.eqb (fst tup) c) tups = (c, v) :: rest
      /\ In (c, v) tups.
Proof.
  induction tups as [|[k v] tups IH]; intros c Hin; [contradiction|].
  cbn [List.filter fst]. destruct (Z.eqb_spec k c) as [->|Hne].
  - exists v, (List.filter (fun tup => Z.eqb (fst tup) c) tups).
    split; [reflexivity | left; reflexivity].
  - destruct Hin as [Hk|Hin]; [contradiction|].
    destruct (IH c Hin) as [v' [rest [Hf Hv]]].
    exists v', rest. split; [exact Hf | right; exact Hv].
Qed.

(** X2.  An address that passes the filter has a certificate hash that
    [certhash] finds and names a peer, provided the address library keeps
    its two views in step (the protocol codes are those of the components)
    and gives every certificate-hash component a non-empty value. *)
Theorem valid_address_has_certhash :
  forall ma : Multiaddr,
    protoCodes ma = List.map fst (stringTuples ma) ->
    (forall v, In (Sdp.CERTHASH_CODE, v) (stringTuples ma) ->
               exists c s, v = Some (String c s)) ->
    Transport.validMa ma = true ->
    (exists v, Sdp.certhash ma = Ok v
               /\ In (Sdp.CERTHASH_CODE, Some v) (stringTuples ma))
    /\ exists id, getPeerId ma = Some id.
Proof.
  intros ma Hcodes Hvalues Hvalid. unfold Transport.validMa in Hvalid.
  apply andb_true_iff in Hvalid. destruct Hvalid as [Hvalid Hpeer].
  apply andb_true_iff in Hvalid. destruct Hvalid as [_ Hcert].
  apply includes_In in Hcert. rewrite Hcodes in Hcert.
  destruct (filter_finds_code _ _ Hcert) as [v [rest [Hf Hin]]].
  destruct (Hvalues v Hin) as [c [s ->]]. split.
  - exists (String c s). split; [|exact Hin].
    unfold Sdp.certhash. change Transport.CERTHASH_CODE with Sdp.CERTHASH_CODE in Hf.
    rewrite Hf. reflexivity.
  - destruct (getPeerId ma) as [id|]; [exists id; reflexivity | discriminate].
Qed.

Lemma valid_address_has_certhash_witness :
  (exists v, Sdp.certhash Examples.address2 = Ok v
             /\ In (Sdp.CERTHASH_CODE, Some v) (stringTuples Examples.address2))
  /\ exists id, getPeerId Examples.address2 = Some id.
Proof.
  apply (valid_address_has_certhash Examples.address2).
  - reflexivity.
  - intros v Hin. cbn in Hin.
    repeat (destruct Hin as [Hin|Hin];
            [inversion Hin; subst; eexists _, _; reflexivity|]).
    contradiction.
  - reflexivity.
Defined.

(** ** Fingerprint derivation *)

Lemma length_append :
  forall a b : string,
    String.length (a ++ b) = (String.length a + String.length b)%nat.
Proof.
  induction a as [|c a IH]; intros b; cbn [append String.length];
    [reflexivity|]. rewrite IH. reflexivity.
Qed.

Lemma length_hex :
  forall d : bytes, String.length (Spec.hex d) = (2 * List.length d)%nat.
Proof.
  induction d as [|b d IH]; [reflexivity|].
  cbn [Spec.hex List.length]. rewrite length_append, IH.
  unfold Spec.hex_pair. cbn [String.length]. lia.
Qed.

Lemma length_HEX_pairs :
  forall (b : byte) (d : bytes),
    String.length (String.concat ":" (List.map Spec.HEX_pair (b :: d)))
    = (3 * List.length (b :: d) - 1)%nat.
Proof.
  intros b d. revert b. induction d as [|b' d IH]; intros b; [reflexivity|].
  change (List.map Spec.HEX_pair (b :: b' :: d))
    with (Spec.HEX_pair b :: Spec.HEX_pair b' :: List.map Spec.HEX_pair d).
  rewrite concat_cons, !length_append.
  change (Spec.HEX_pair b' :: List.map Spec.HEX_pair d)
    with (List.map Spec.HEX_pair (b' :: d)).
  rewrite IH. unfold Spec.HEX_pair. cbn [String.length List.length]. lia.
Qed.

Section FingerprintEdges.

Context {libs : Multiformats}.

(** X3.  Whenever [certhashToFingerprint] returns, the certificate hash
    decoded to a multihash of the allow-list with a non-empty digest of [n]
    bytes, and the result is the display string, of [3 n] characters after
    the tag, with the lowercase hexadecimal text of [2 n] characters. *)
Theorem certhashToFingerprint_returns_only :
  forall (ma : Multiaddr) (display fp : string),
    Sdp.certhashToFingerprint ma = Ok (display, fp) ->
    exists (certhash_value : string) (mh : bytes) (m : Multihash)
           (a : Spec.HashAlgorithm),
      Sdp.certhash ma = Ok certhash_value
      /\ mbdecoder_decode certhash_value = Ok mh
      /\ multihashes_decode mh = Ok m
      /\ name m = Spec.multihash_name a
      /\ digest m <> []
      /\ display = Spec.display (Spec.tag a) (digest m)
      /\ fp = Spec.hex (digest m)
      /\ String.length fp = (2 * List.length (digest m))%nat
      /\ String.length display
         = (String.length (Spec.tag a) + 3 * List.length (digest m))%nat.
Proof.
  intros ma display fp H. pose proof H as H0.
  unfold Sdp.certhashToFingerprint in H.
  apply bind_Ok in H. destruct H as [cv [Hc H]].
  apply bind_Ok in H. destruct H as [mh [Hmb H]].
  apply bind_Ok in H. destruct H as [m [Hmh H]].
  apply bind_Ok in H. destruct H as [prefix [Hprefix H]].
  apply bind_Ok in H. destruct H as [pairs [Hpairs _]].
  assert (Ha : exists a, name m = Spec.multihash_name a).
  { destruct (String.eqb_spec (name m) "md5") as [E|_];
      [exists Spec.MD5; exact E|].
    destruct (String.eqb_spec (name m) "sha2-256") as [E|_];
      [exists Spec.SHA_256; exact E|].
    destruct (String.eqb_spec (name m) "sha2-512") as [E|_];
      [exists Spec.SHA_512; exact E|].
    discriminate. }
  destruct Ha as [a Ha].
  assert (Hd : digest m <> []).
  { intros E. rewrite E in Hpairs. discriminate. }
  exists cv, mh, m, a.
  rewrite (fingerprint_of_multihash ma cv mh m a Hc Hmb Hmh Ha Hd) in H0.
  inversion H0; subst display fp. repeat split; try assumption.
  - apply length_hex.
  - unfold Spec.display. rewrite !length_append.
    destruct (digest m) as [|b d]; [contradiction|].
    rewrite length_HEX_pairs. cbn [String.length List.length]. lia.
Qed.

(** X4.  A multihash of the allow-list with an empty digest makes the
    derivation throw (the match of the empty text is null), not return a
    fingerprint without digits. *)
Theorem certhashToFingerprint_empty_digest :
  forall (ma : Multiaddr) (certhash_value : string) (mh : bytes)
         (m : Multihash),
    Sdp.certhash ma = Ok certhash_value ->
    mbdecoder_decode certhash_value = Ok mh ->
    multihashes_decode mh = Ok m ->
    Spec.allow_listed (name m) = true ->
    digest m = [] ->
    Sdp.certhashToFingerprint ma = Throw (ForeignError "TypeError").
Proof.
  intros ma cv mh m Hc Hmb Hmh Hallow Hd. unfold Sdp.certhashToFingerprint.
  rewrite Hc. cbn [bind]. rewrite Hmb. cbn [bind]. rewrite Hmh. cbn [bind].
  rewrite Hd. unfold Spec.allow_listed in Hallow.
  destruct (name m =? "md5"); [reflexivity|].
  destruct (name m =? "sha2-256"); [reflexivity|].
  destruct (name m =? "sha2-512"); [reflexivity|discriminate].
Qed.

End FingerprintEdges.

Lemma certhashToFingerprint_returns_only_witness :
  exists (certhash_value : string) (mh : bytes) (m : Multihash)
         (a : Spec.HashAlgorithm),
    Sdp.certhash Examples.address2 = Ok certhash_value
    /\ mbdecoder_decode certhash_value = Ok mh
    /\ multihashes_decode mh = Ok m
    /\ name m = Spec.multihash_name a
    /\ digest m <> []
    /\ Spec.display "SHA-256" Examples.D = Spec.display (Spec.tag a) (digest m)
    /\ Spec.hex Examples.D = Spec.hex (digest m)
    /\ String.length (Spec.hex Examples.D) = (2 * List.length (digest m))%nat
    /\ String.length (Spec.display "SHA-256" Examples.D)
       = (String.length (Spec.tag a) + 3 * List.length (digest m))%nat.
Proof.
  apply (certhashToFingerprint_returns_only Examples.address2).
  vm_compute. reflexivity.
Defined.

Lemma certhashToFingerprint_empty_digest_witness :
  Sdp.certhashToFingerprint Cases.empty_digest_address
  = Throw (ForeignError "TypeError").
Proof.
  refine (certhashToFingerprint_empty_digest Cases.empty_digest_address
            "f1200" [x12; x00]
            {| code := 0x12; name := "sha2-256"; length := 0; digest := [] |}
            _ _ _ _ _);
    vm_compute; reflexivity.
Defined.

(** ** The SDP synthesizer *)

Section SynthesizerEdges.

Context {libs : Multiformats}.

(** X5.  [fromMultiAddr] returns no description when a step fails, and the
    steps fail in this order: an address that gives no host and port makes
    it throw what the address library throws; otherwise an address without
    certificate hash makes it throw the inappropriate-address error, and a
    certificate hash of an algorithm outside the allow-list the
    unsupported-hash-algorithm error. *)
Theorem fromMultiAddr_failures :
  forall (ma : Multiaddr) (ufrag : string),
    (forall e, toOptions ma = Throw e -> Sdp.fromMultiAddr ma ufrag = Throw e)
    /\
    (forall o,
        toOptions ma = Ok o ->
        (forall t, In t (stringTuples ma) -> fst t <> Sdp.CERTHASH_CODE) ->
        Sdp.fromMultiAddr ma ufrag
        = Throw (InappropriateMultiaddrError
                   ("Couldn't find a certhash component of multiaddr:"
                    ++ toString ma)))
    /\
    (forall o certhash_value mh m,
        toOptions ma = Ok o ->
        Sdp.certhash ma = Ok certhash_value ->
        mbdecoder_decode certhash_value = Ok mh ->
        multihashes_decode mh = Ok m ->
        Spec.allow_listed (name m) = false ->
        Sdp.fromMultiAddr ma ufrag
        = Throw (UnsupportedHashAlgorithmError (name m))).
Proof.
  intros ma ufrag. unfold Sdp.fromMultiAddr, Sdp.ma2sdp, Sdp.ip, Sdp.port.
  split; [|split].
  - intros e He. rewrite He. reflexivity.
  - intros o Ho Hno. rewrite Ho. cbn [bind].
    unfold Sdp.certhashToFingerprint, Sdp.certhash.
    rewrite (filter_without_code _ _ Hno). reflexivity.
  - intros o cv mh m Ho Hc Hmb Hmh Hout. rewrite Ho. cbn [bind].
    unfold Spec.allow_listed in Hout.
    apply orb_false_iff in Hout. destruct Hout as [Hout H512].
    apply orb_false_iff in Hout. destruct Hout as [Hmd5 H256].
    unfold Sdp.certhashToFingerprint.
    rewrite Hc. cbn [bind]. rewrite Hmb. cbn [bind]. rewrite Hmh. cbn [bind].
    rewrite Hmd5, H256, H512. reflexivity.
Qed.

End SynthesizerEdges.

Lemma fromMultiAddr_failures_witness :
  Sdp.fromMultiAddr Examples.address3 "0123abcd"
  = Throw (InappropriateMultiaddrError
             ("Couldn't find a certhash component of multiaddr:"
              ++ toString Examples.address3))
  /\ Sdp.fromMultiAddr Examples.sha1_address "0123abcd"
     = Throw (UnsupportedHashAlgorithmError "sha1").
Proof.
  split.
  - refine (proj1 (proj2 (fromMultiAddr_failures Examples.address3 "0123abcd"))
              {| host := "1.2.3.4"; port := 1234 |} eq_refl _).
    intros t Hin. cbn in Hin.
    repeat (destruct Hin as [<-|Hin]; [discriminate|]). contradiction.
  - refine (proj2 (proj2 (fromMultiAddr_failures Examples.sha1_address
                            "0123abcd"))
              {| host := "1.2.3.4"; port := 1234 |} "f11020a0b"
              [x11; x02; x0a; x0b]
              {| code := 0x11; name := "sha1"; length := 2;
                 digest := [x0a; x0b] |} eq_refl _ _ _ _);
      vm_compute; reflexivity.
Defined.

Section SynthesizerLayout.

Context {libs : Multiformats}.

(** X6.  The synthesized SDP text is these sixteen segments in this order,
    separated by newlines: fifteen lines, the last of which ends with a
    carriage return, and nothing after the final newline. *)
Theorem fromMultiAddr_layout :
  forall (ma : Multiaddr) (ufrag : string) (o : MultiaddrOptions)
         (CERTFP fp : string),
    toOptions ma = Ok o ->
    Spec.contains JS.LF (host o) = false ->
    Forall (fun n => Spec.contains JS.LF n = false) (protoNames ma) ->
    Sdp.certhashToFingerprint ma = Ok (CERTFP, fp) ->
    Spec.contains JS.LF ufrag = false ->
    exists body,
      Sdp.fromMultiAddr ma ufrag
      = Ok {| Sdp.type := Sdp.answer; Sdp.sdp := Some body |}
      /\ Spec.lines body
         = [ "v=0";
             "o=- 0 0 IN " ++ Sdp.ipv ma ++ " " ++ host o;
             "s=-";
             "c=IN " ++ Sdp.ipv ma ++ " " ++ host o;
             "t=0 0";
             "a=ice-lite";
             "m=application " ++ JS.Number_toString (port o)
               ++ " UDP/DTLS/SCTP webrtc-datachannel";
             "a=mid:0";
             "a=setup:passive";
             "a=ice-ufrag:" ++ ufrag;
             "a=ice-pwd:" ++ ufrag;
             "a=fingerprint:" ++ CERTFP;
             "a=sctp-port:5000";
             "a=max-message-size:100000";
             "a=candidate:1467250027 1 UDP 1467250027 " ++ host o ++ " "
               ++ JS.Number_toString (port o) ++ " typ host"
               ++ String JS.CR "";
             "" ].
Proof.
  intros ma ufrag o CERTFP fp Hopts Hhost Hnames Hfp Hufrag.
  destruct (ma2sdp_lines ma ufrag o CERTFP fp Hopts Hhost Hnames Hfp Hufrag)
    as [body [Hbody Hlines]].
  exists body. unfold Sdp.fromMultiAddr. rewrite Hbody. cbn [bind].
  split; [reflexivity | exact Hlines].
Qed.


End SynthesizerLayout.

Lemma fromMultiAddr_layout_witness :
  exists body,
    Sdp.fromMultiAddr Examples.address2 "0123abcd"
    = Ok {| Sdp.type := Sdp.answer; Sdp.sdp := Some body |}
    /\ List.length (Spec.lines body) = 16%nat
    /\ nth_error (Spec.lines body) 6
       = Some "m=application 1234 UDP/DTLS/SCTP webrtc-datachannel".
Proof.
  destruct (fromMultiAddr_layout Examples.address2 "0123abcd"
              {| host := "1.2.3.4"; port := 1234 |}
              (Spec.display "SHA-256" Examples.D) (Spec.hex Examples.D)
              eq_refl eq_refl ltac:(repeat constructor)
              ltac:(vm_compute; reflexivity) eq_refl)
    as [body [Hd Hlines]].
  exists body. split; [exact Hd|]. rewrite Hlines. split; reflexivity.
Defined.


(** ** The SDP mutator *)

Lemma rewrite_first_line_length :
  forall (lit ufrag : string) (ls : list string),
    List.length (Spec.rewrite_first_line lit ufrag ls) = List.length ls.
Proof.
  intros lit ufrag. induction ls as [|l rest IH]; [reflexivity|].
  destruct rest as [|r rest]; [reflexivity|].
  destruct (JS.startsWith l lit) eqn:E.
  - rewrite (rewrite_first_line_hit _ _ _ _ _ E). reflexivity.
  - rewrite (rewrite_first_line_skip _ _ _ _ E). cbn [List.length] in *.
    rewrite IH. reflexivity.
Qed.

Lemma rewrite_first_line_nth :
  forall (lit ufrag : string) (ls : list string) (i : nat) (l : string),
    nth_error ls i = Some l ->
    exists l',
      nth_error (Spec.rewrite_first_line lit ufrag ls) i = Some l'
      /\ (l' = l \/ (JS.startsWith l lit = true /\ l' = lit ++ ufrag)).
Proof.
  intros lit ufrag. induction ls as [|x rest IH]; intros i l Hi.
  - destruct i; discriminate.
  - destruct rest as [|r rest].
    + exists l. split; [exact Hi | left; reflexivity].
    + destruct (JS.startsWith x lit) eqn:E.
      * rewrite (rewrite_first_line_hit _ _ _ _ _ E). destruct i as [|i].
        -- inversion Hi; subst. exists (lit ++ ufrag).
           split; [reflexivity | right; split; [exact E | reflexivity]].
        -- exists l. split; [exact Hi | left; reflexivity].
      * rewrite (rewrite_first_line_skip _ _ _ _ E). destruct i as [|i].
        -- exists l. split; [exact Hi | left; reflexivity].
        -- apply (IH i l Hi).
Qed.

(** X8.  With a ufrag free of newlines and dollar signs, [munge] keeps
    the number of lines, and every line of the result is the line of the
    body at the same place or, where that one is an ice-ufrag or ice-pwd
    line, exactly the attribute followed by the ufrag: whatever followed
    the old value on that line, a carriage return included, is gone. *)
Theorem munge_line_by_line :
  forall (desc : Sdp.RTCSessionDescriptionInit) (body ufrag : string),
    Sdp.sdp desc = Some body ->
    body <> "" ->
    Spec.contains JS.LF ufrag = false ->
    Spec.contains "$" ufrag = false ->
    exists body',
      Sdp.munge desc ufrag
      = ({| Sdp.type := Sdp.type desc; Sdp.sdp := Some body' |},
         Ok {| Sdp.type := Sdp.type desc; Sdp.sdp := Some body' |})
      /\ List.length (Spec.lines body') = List.length (Spec.lines body)
      /\ forall (i : nat) (l : string),
          nth_error (Spec.lines body) i = Some l ->
          exists l',
            nth_error (Spec.lines body') i = Some l'
            /\ (l' = l
                \/ (JS.startsWith l "a=ice-ufrag:" = true
                    /\ l' = "a=ice-ufrag:" ++ ufrag)
                \/ (JS.startsWith l "a=ice-pwd:" = true
                    /\ l' = "a=ice-pwd:" ++ ufrag)).
Proof.
  intros desc body ufrag Hsdp Hne HLF Hdollar.
  rewrite (munge_with_body _ _ _ Hsdp Hne). eexists. cbv zeta.
  split; [reflexivity|].
  rewrite (munge_body_lines body ufrag HLF Hdollar).
  destruct (lines_nonempty body) as [first [rest ->]].
  cbn [Spec.mungeIceCredentials]. rewrite rewrite_credentials_split. split.
  - cbn [List.length]. rewrite !rewrite_first_line_length. reflexivity.
  - intros [|i] l Hi.
    + exists l. split; [exact Hi | left; reflexivity].
    + cbn [nth_error] in *.
      destruct (rewrite_first_line_nth "a=ice-ufrag:" ufrag rest i l Hi)
        as [l1 [H1 Hl1]].
      destruct (rewrite_first_line_nth "a=ice-pwd:" ufrag _ i l1 H1)
        as [l2 [H2 Hl2]].
      exists l2. split; [exact H2|].
      destruct Hl2 as [->|[Hp ->]].
      * destruct Hl1 as [->|[Hu ->]]; [left; reflexivity|].
        right. left. split; [exact Hu | reflexivity].
      * destruct Hl1 as [->|[Hu ->]].
        -- right. right. split; [exact Hp | reflexivity].
        -- discriminate Hp.
Qed.

Lemma munge_line_by_line_witness :
  exists body',
    Sdp.munge Cases.crlf_offer "0123abcd"
    = ({| Sdp.type := Sdp.offer; Sdp.sdp := Some body' |},
       Ok {| Sdp.type := Sdp.offer; Sdp.sdp := Some body' |})
    /\ List.length (Spec.lines body') = 4%nat
    /\ exists l',
        nth_error (Spec.lines body') 1 = Some l'
        /\ (l' = "a=ice-ufrag:Zq1x" ++ String JS.CR ""
            \/ (JS.startsWith ("a=ice-ufrag:Zq1x" ++ String JS.CR "")
                  "a=ice-ufrag:" = true
                /\ l' = "a=ice-ufrag:0123abcd")
            \/ (JS.startsWith ("a=ice-ufrag:Zq1x" ++ String JS.CR "")
                  "a=ice-pwd:" = true
                /\ l' = "a=ice-pwd:0123abcd")).
Proof.
  destruct (munge_line_by_line Cases.crlf_offer
              ("v=0" ++ String JS.CR JS.nl
               ++ "a=ice-ufrag:Zq1x" ++ String JS.CR JS.nl
               ++ "a=ice-pwd:secret" ++ String JS.CR JS.nl)
              "0123abcd" eq_refl ltac:(discriminate) eq_refl eq_refl)
    as [body' [Hm [Hlen Hnth]]].
  exists body'. split; [exact Hm|]. split; [exact Hlen|].
  apply (Hnth 1%nat). reflexivity.
Defined.

(** ** The Noise prologue *)

Section PrologueEdges.

Context {libs : Multiformats}.

(** X9.  Whatever the address, a connection configured with an empty list
    of certificates makes the prologue builder throw the invalid-argument
    error "no local certificate"; one without a list of certificates, or
    whose first certificate has no fingerprint, makes it throw the
    invalid-argument error "no fingerprint on local certificate". *)
Theorem generateNoisePrologue_without_certificate :
  forall (pc : Transport.RTCPeerConnection) (ma : Multiaddr),
    (Transport.certificates (Transport.getConfiguration pc) = Some [] ->
     Transport.generateNoisePrologue pc ma
     = Throw (InvalidArgumentError "no local certificate"))
    /\
    (Transport.certificates (Transport.getConfiguration pc) = None ->
     Transport.generateNoisePrologue pc ma
     = Throw (InvalidArgumentError "no fingerprint on local certificate"))
    /\
    (forall cert certs,
        Transport.certificates (Transport.getConfiguration pc)
        = Some (cert :: certs) ->
        Transport.getFingerprints cert = [] ->
        Transport.generateNoisePrologue pc ma
        = Throw (InvalidArgumentError "no fingerprint on local certificate")).
Proof.
  intros pc ma. unfold Transport.generateNoisePrologue. repeat split.
  - intros ->. reflexivity.
  - intros ->. reflexivity.
  - intros cert certs -> ->. reflexivity.
Qed.

(** X10.  Once the local certificate has passed its checks, an address
    without certificate hash makes the prologue builder throw the
    inappropriate-address error, and a certificate hash that the multibase
    decoder rejects makes it throw what the decoder throws. *)
Theorem generateNoisePrologue_remote_failures :
  forall (pc : Transport.RTCPeerConnection) (ma : Multiaddr) (F : bytes),
    Spec.local_fingerprint pc F ->
    ((forall t, In t (stringTuples ma) -> fst t <> Sdp.CERTHASH_CODE) ->
     Transport.generateNoisePrologue pc ma
     = Throw (InappropriateMultiaddrError
                ("Couldn't find a certhash component of multiaddr:"
                 ++ toString ma)))
    /\
    (forall certhash_value e,
        Sdp.certhash ma = Ok certhash_value ->
        mbdecoder_decode certhash_value = Throw e ->
        Transport.generateNoisePrologue pc ma = Throw e).
Proof.
  intros pc ma F
    [cert [certs [fp [fps [v [d [Hcerts [Hfps [Halg [Hv [Hhex Henc]]]]]]]]]]].
  rewrite (generateNoisePrologue_sha256 pc ma cert certs fp fps v d)
    by assumption.
  rewrite Henc. cbn [bind]. split.
  - intros Hno. unfold Sdp.certhash.
    rewrite (filter_without_code _ _ Hno). reflexivity.
  - intros cv e Hc Hmb. rewrite Hc. cbn [bind]. rewrite Hmb. reflexivity.
Qed.

(** X11.  Whenever the prologue builder returns, the first fingerprint of
    the first local certificate is a SHA-256 fingerprint, the address has a
    certificate hash that decodes, and the result is the 20-byte prefix
    followed by the local and the remote fingerprint. *)
Theorem generateNoisePrologue_returns_only :
  forall (pc : Transport.RTCPeerConnection) (ma : Multiaddr) (p : bytes),
    Transport.generateNoisePrologue pc ma = Ok p ->
    exists local remote : bytes,
      Spec.local_fingerprint pc local
      /\ Spec.remote_fingerprint ma remote
      /\ p = (uint8arrayFromString "libp2p-webrtc-noise:" ++ local ++ remote)%list
      /\ List.length p = (20 + List.length local + List.length remote)%nat.
Proof.
  intros pc ma p H. unfold Transport.generateNoisePrologue in H.
  destruct (Transport.certificates (Transport.getConfiguration pc))
    as [[|cert certs]|] eqn:Hcerts; try discriminate.
  destruct (Transport.getFingerprints cert) as [|fp fps] eqn:Hfps;
    [discriminate|].
  apply bind_Ok in H. destruct H as [s [Hs H]].
  destruct (Transport.value fp) as [v|] eqn:Hv; [|discriminate].
  inversion Hs; subst s; clear Hs.
  apply bind_Ok in H. destruct H as [d [Hhex H]].
  destruct (Transport.algorithm fp) as [a|] eqn:Halg; [|discriminate].
  destruct (String.eqb_spec a "sha-256") as [->|Hne]; [|discriminate].
  cbn [negb] in H.
  apply bind_Ok in H. destruct H as [local [Henc H]].
  apply bind_Ok in H. destruct H as [cv [Hc H]].
  apply bind_Ok in H. destruct H as [remote [Hmb H]].
  inversion H; subst p; clear H. exists local, remote. repeat split.
  - exists cert, certs, fp, fps, v, d. repeat split; assumption.
  - exists cv. split; assumption.
  - simpl. rewrite ?length_app. reflexivity.
Qed.

End PrologueEdges.

Lemma generateNoisePrologue_without_certificate_witness :
  Transport.generateNoisePrologue Cases.pc_no_certificate Examples.address2
  = Throw (InvalidArgumentError "no local certificate")
  /\ Transport.generateNoisePrologue Cases.pc_no_fingerprint Examples.address2
     = Throw (InvalidArgumentError "no fingerprint on local certificate").
Proof.
  split.
  - apply (proj1 (generateNoisePrologue_without_certificate
                    Cases.pc_no_certificate Examples.address2)).
    reflexivity.
  - apply (proj2 (proj2 (generateNoisePrologue_without_certificate
                           Cases.pc_no_fingerprint Examples.address2))
             {| Transport.getFingerprints := [] |} []);
      reflexivity.
Defined.

Lemma generateNoisePrologue_remote_failures_witness :
  Transport.generateNoisePrologue Examples.pc1 Examples.address3
  = Throw (InappropriateMultiaddrError
             ("Couldn't find a certhash component of multiaddr:"
              ++ toString Examples.address3)).
Proof.
  apply (proj1 (generateNoisePrologue_remote_failures Examples.pc1
                  Examples.address3 Examples.F1 local_fingerprint_pc1)).
  intros t Hin. cbn in Hin.
  repeat (destruct Hin as [<-|Hin]; [discriminate|]). contradiction.
Defined.

Lemma generateNoisePrologue_returns_only_witness :
  exists local remote : bytes,
    Spec.local_fingerprint Examples.pc1 local
    /\ Spec.remote_fingerprint Examples.address5 remote
    /\ (Examples.prologue_prefix ++ Examples.F1 ++ Examples.F2)%list
       = (uint8arrayFromString "libp2p-webrtc-noise:" ++ local ++ remote)%list
    /\ List.length (Examples.prologue_prefix ++ Examples.F1 ++ Examples.F2)%list
       = (20 + List.length local + List.length remote)%nat.
Proof.
  apply (generateNoisePrologue_returns_only Examples.pc1 Examples.address5).
  vm_compute. reflexivity.
Defined.

(** ** The dial sequence *)

Ltac dial_cases H :=
  unfold Dial.dial, Dial._connect in H;
  repeat
    (cbn [Dial.andThen Dial.call Dial.inline fst snd app] in H;
     match type of H with
     | context [match ?x with Some _ => _ | None => _ end] =>
         destruct x as [[|? ?]|] eqn:?
     | context [match ?x with Ok _ => _ | Throw _ => _ end] =>
         destruct x eqn:?
     | context [match ?x with
                | Dial.Opened => _
                | Dial.Errored _ => _
                | Dial.TimedOut _ => _
                end] =>
         destruct x eqn:?
     | context [match ?x with Dial.Fulfilled _ => _ | Dial.Failed _ => _ end] =>
         destruct x eqn:?
     end);
  cbn [Dial.andThen Dial.call Dial.inline fst snd app] in H;
  inversion H; subst; clear H.

Section DialSequence.

Variables PeerId Connection : Type.
Context {libs : Multiformats}.

(** X12.  Dialing an address that names no peer fails with the
    inappropriate-address error before any call is made: no certificate
    is generated and no connection is set up. *)
Theorem dial_without_peer :
  forall (c : Dial.Collaborators PeerId Connection) (me : PeerId)
         (ma : Multiaddr),
    getPeerId ma = None \/ getPeerId ma = Some "" ->
    Dial.dial c me ma
    = ([], Dial.Failed
             (Dial.Thrown
                (InappropriateMultiaddrError
                   "we need to have the remote's PeerId"))).
Proof.
  intros c me ma [H|H]; unfold Dial.dial, Dial._connect; rewrite H;
    reflexivity.
Qed.

(** X13.  The calls of a dial are an initial part of the sequence
    certificate, peer connection, data channel, offer, local description,
    remote description, channel wait, handshake, upgrade: no call is made
    twice or out of turn, and the dial succeeds only after all nine. *)
Theorem dial_in_order :
  forall (c : Dial.Collaborators PeerId Connection) (me : PeerId)
         (ma : Multiaddr) (steps : list (Dial.Step PeerId))
         (r : Dial.outcome Connection),
    Dial.dial c me ma = (steps, r) ->
    exists n : nat,
      List.map Dial.position steps = List.firstn n [0; 1; 2; 3; 4; 5; 6; 7; 8]%nat
      /\ forall conn, r = Dial.Fulfilled conn -> n = 9%nat.
Proof.
  intros c me ma steps r H.
  dial_cases H;
    first
      [ exists 0%nat; split; [reflexivity | intros; discriminate]
      | exists 1%nat; split; [reflexivity | intros; discriminate]
      | exists 3%nat; split; [reflexivity | intros; discriminate]
      | exists 4%nat; split; [reflexivity | intros; discriminate]
      | exists 5%nat; split; [reflexivity | intros; discriminate]
      | exists 6%nat; split; [reflexivity | intros; discriminate]
      | exists 7%nat; split; [reflexivity | intros; discriminate]
      | exists 8%nat; split; [reflexivity | intros; discriminate]
      | exists 9%nat; split; [reflexivity | intros; reflexivity] ].
Qed.

(** X14.  A dial calls the upgrader only at the end of a complete run:
    the handshake channel has opened, the prologue is the one that
    [generateNoisePrologue] builds from the generated certificate and the
    address, the Noise handshake with that prologue has been called and
    has succeeded, and the upgrade is asked for the dialed address with
    protection and encryption skipped; its answer is the result. *)
Theorem dial_upgrades_after_handshake :
  forall (c : Dial.Collaborators PeerId Connection) (me : PeerId)
         (ma : Multiaddr) (steps : list (Dial.Step PeerId))
         (r : Dial.outcome Connection)
         (a : Multiaddr) (sp se : bool),
    Dial.dial c me ma = (steps, r) ->
    In (Dial.UpgradeOutbound a sp se) steps ->
    exists (rps : string) (cert : Transport.RTCCertificate) (them : PeerId)
           (prologue : bytes),
      let pc :=
        {| Transport.getConfiguration :=
             {| Transport.certificates := Some [cert] |} |} in
      getPeerId ma = Some rps
      /\ Dial.generateCertificate c = Dial.Fulfilled cert
      /\ Dial.handshakeChannel c = Dial.Opened
      /\ Dial.peerIdFromString c rps = Dial.Fulfilled them
      /\ Transport.generateNoisePrologue pc ma = Ok prologue
      /\ Dial.secureInbound c prologue me them = Dial.Fulfilled tt
      /\ In (Dial.SecureInbound prologue me them) steps
      /\ a = ma /\ sp = true /\ se = true
      /\ r = Dial.upgradeOutbound c ma pc.
Proof.
  intros c me ma steps r a sp se H Hin.
  dial_cases H; cbn [In] in Hin;
    repeat (destruct Hin as [Hin|Hin]; [try discriminate Hin|]);
    try contradiction.
  all: inversion Hin; subst; clear Hin.
  all: repeat match goal with u : unit |- _ => destruct u end.
  all: eexists _, _, _, _; cbv zeta;
    repeat (split; [eassumption || reflexivity || (cbn [In]; tauto)|]);
    symmetry; eassumption.
Qed.

(** X15.  When the handshake channel does not open, the dial fails without
    calling the Noise handshake or the upgrader; if it got as far as
    waiting for the channel, it fails with the data-channel error that
    tells the channel's state after the timeout, or the error event. *)
Theorem dial_channel_not_opened :
  forall (c : Dial.Collaborators PeerId Connection) (me : PeerId)
         (ma : Multiaddr) (steps : list (Dial.Step PeerId))
         (r : Dial.outcome Connection),
    Dial.dial c me ma = (steps, r) ->
    Dial.handshakeChannel c <> Dial.Opened ->
    (forall s, In s steps -> (Dial.position s < 7)%nat)
    /\ exists f,
        r = Dial.Failed f
        /\ (In Dial.AwaitDataChannel steps ->
            f = Dial.DataChannelFailure "data"
                  match Dial.handshakeChannel c with
                  | Dial.TimedOut readyState =>
                      "data channel was never opened: state: " ++ readyState
                  | Dial.Errored ev => "error opening datachannel: " ++ ev
                  | Dial.Opened => ""
                  end).
Proof.
  intros c me ma steps r H Hclosed.
  dial_cases H; try congruence;
    (split;
     [ intros step Hs; cbn [In] in Hs;
       repeat (destruct Hs as [<-|Hs]; [cbn [Dial.position]; lia|]);
       contradiction
     | eexists; split; [reflexivity|];
       intros Hin; cbn [In] in Hin;
       repeat (destruct Hin as [Hin|Hin]; [try discriminate Hin|]);
       try contradiction;
       reflexivity ]).
Qed.

End DialSequence.

Lemma contains_removeAll :
  forall (c d : ascii) (s : string),
    Spec.contains c s = false -> Spec.contains c (JS.removeAll d s) = false.
Proof.
  intros c d. induction s as [|x s IH]; intros H; [reflexivity|].
  cbn [Spec.contains] in H. apply orb_false_iff in H. destruct H as [Hx Hs].
  cbn [JS.removeAll]. destruct (Ascii.eqb x d); [exact (IH Hs)|].
  cbn [Spec.contains]. rewrite Hx, (IH Hs). reflexivity.
Qed.

Lemma munge_Ok :
  forall (desc d' : Sdp.RTCSessionDescriptionInit) (ufrag : string),
    snd (Sdp.munge desc ufrag) = Ok d' ->
    exists body,
      Sdp.sdp desc = Some body
      /\ body <> ""
      /\ d' = {| Sdp.type := Sdp.type desc;
                 Sdp.sdp := Some
                   (JS.replace "a=ice-pwd:"
                      (JS.nl ++ "a=ice-pwd:" ++ ufrag ++ JS.nl)
                      (JS.replace "a=ice-ufrag:"
                         (JS.nl ++ "a=ice-ufrag:" ++ ufrag ++ JS.nl) body)) |}.
Proof.
  intros desc d' ufrag H. unfold Sdp.munge in H.
  destruct (Sdp.sdp desc) as [[|ch body]|] eqn:E; try discriminate.
  cbn [snd] in H. inversion H; subst d'. exists (String ch body).
  repeat split. discriminate.
Qed.

Section SynthesizedCredentials.

Context {libs : Multiformats}.

(** A description that [fromMultiAddr] returned, under the conditions on
    the address and the ufrag that keep their texts on one line. *)
Lemma synthesized_credentials :
  forall (ma : Multiaddr) (ufrag : string) (d : Sdp.RTCSessionDescriptionInit),
    Sdp.fromMultiAddr ma ufrag = Ok d ->
    (forall o, toOptions ma = Ok o -> Spec.contains JS.LF (host o) = false) ->
    Forall (fun n => Spec.contains JS.LF n = false) (protoNames ma) ->
    Spec.contains JS.LF ufrag = false ->
    exists body,
      d = {| Sdp.type := Sdp.answer; Sdp.sdp := Some body |}
      /\ Spec.attribute_lines "a=ice-ufrag:" body = ["a=ice-ufrag:" ++ ufrag]
      /\ Spec.attribute_lines "a=ice-pwd:" body = ["a=ice-pwd:" ++ ufrag].
Proof.
  intros ma ufrag d H Hhost Hnames Hufrag. pose proof H as H0.
  unfold Sdp.fromMultiAddr in H. apply bind_Ok in H.
  destruct H as [body0 [Hbody _]]. unfold Sdp.ma2sdp in Hbody.
  apply bind_Ok in Hbody. destruct Hbody as [h [Hip Hbody]].
  unfold Sdp.ip in Hip. apply bind_Ok in Hip. destruct Hip as [o [Ho _]].
  apply bind_Ok in Hbody. destruct Hbody as [pt [_ Hbody]].
  apply bind_Ok in Hbody. destruct Hbody as [[CERTFP fp] [Hfp _]].
  destruct (ma2sdp_lines ma ufrag o CERTFP fp Ho (Hhost o Ho) Hnames Hfp Hufrag)
    as [body [Hb Hlines]].
  unfold Sdp.fromMultiAddr in H0. rewrite Hb in H0. cbn [bind] in H0.
  inversion H0; subst d. exists body. split; [reflexivity|].
  unfold Spec.attribute_lines. rewrite Hlines. split; reflexivity.
Qed.

End SynthesizedCredentials.

Section DialCredentials.

Variables PeerId Connection : Type.
Context {libs : Multiformats}.

(** X16.  When a dial installs a remote description, it has installed a
    local one before, and the two agree on the ICE credentials: the local
    one is the engine's offer munged with the UUID stripped of its dashes,
    and the remote one is an answer whose only ice-ufrag line and only
    ice-pwd line carry that same text.  (A UUID has no newline and no
    dollar sign; the host and the protocol names of the address are taken
    to span no line break.) *)
Theorem dial_descriptions_share_ufrag :
  forall (c : Dial.Collaborators PeerId Connection) (me : PeerId)
         (ma : Multiaddr) (steps : list (Dial.Step PeerId))
         (r : Dial.outcome Connection)
         (d : Sdp.RTCSessionDescriptionInit),
    Dial.dial c me ma = (steps, r) ->
    Spec.contains JS.LF (Dial.genUuid c) = false ->
    Spec.contains "$" (Dial.genUuid c) = false ->
    (forall o, toOptions ma = Ok o -> Spec.contains JS.LF (host o) = false) ->
    Forall (fun n => Spec.contains JS.LF n = false) (protoNames ma) ->
    In (Dial.SetRemoteDescription d) steps ->
    exists (offer0 : Sdp.RTCSessionDescriptionInit) (body0 body1 body2 : string),
      let ufrag := JS.removeAll "-" (Dial.genUuid c) in
      Dial.createOffer c = Dial.Fulfilled offer0
      /\ Sdp.sdp offer0 = Some body0
      /\ In (Dial.SetLocalDescription
               {| Sdp.type := Sdp.type offer0; Sdp.sdp := Some body1 |}) steps
      /\ Spec.lines body1 = Spec.mungeIceCredentials ufrag (Spec.lines body0)
      /\ d = {| Sdp.type := Sdp.answer; Sdp.sdp := Some body2 |}
      /\ Spec.attribute_lines "a=ice-ufrag:" body2 = ["a=ice-ufrag:" ++ ufrag]
      /\ Spec.attribute_lines "a=ice-pwd:" body2 = ["a=ice-pwd:" ++ ufrag].
Proof.
  intros c me ma steps r d H HLF Hdollar Hhost Hnames Hin.
  pose proof (contains_removeAll JS.LF "-" _ HLF) as HLF'.
  pose proof (contains_removeAll "$" "-" _ Hdollar) as Hdollar'.
  dial_cases H; cbn [In] in Hin;
    repeat (destruct Hin as [Hin|Hin]; [try discriminate Hin|]);
    try contradiction.
  all: inversion Hin; subst; clear Hin.
  all: match goal with
       | Hm : snd (Sdp.munge ?o _) = Ok _,
         Hf : Sdp.fromMultiAddr _ _ = Ok _ |- _ =>
           destruct (munge_Ok _ _ _ Hm) as [body0 [Hs0 [Hne ->]]];
           destruct (synthesized_credentials _ _ _ Hf Hhost Hnames HLF')
             as [body2 [-> [Hu Hp]]];
           eexists o, body0, _, body2; cbv zeta;
           split; [reflexivity|]; split; [exact Hs0|];
           split; [cbn [In]; do 4 right; left; reflexivity|];
           split; [apply munge_body_lines; assumption|];
           split; [reflexivity|]; split; assumption
       end.
Qed.

(** X17.  When the Noise handshake fails, the dial fails with that very
    failure and the upgrader is not called. *)
Theorem dial_handshake_failure :
  forall (c : Dial.Collaborators PeerId Connection) (me : PeerId)
         (ma : Multiaddr) (steps : list (Dial.Step PeerId))
         (r : Dial.outcome Connection)
         (prologue : bytes) (a b : PeerId) (f : Dial.Failure),
    Dial.dial c me ma = (steps, r) ->
    In (Dial.SecureInbound prologue a b) steps ->
    Dial.secureInbound c prologue a b = Dial.Failed f ->
    r = Dial.Failed f
    /\ forall s, In s steps -> (Dial.position s < 8)%nat.
Proof.
  intros c me ma steps r prologue a b f H Hin Hfail.
  dial_cases H; cbn [In] in Hin;
    repeat (destruct Hin as [Hin|Hin]; [try discriminate Hin|]);
    try contradiction.
  all: inversion Hin; subst; clear Hin.
  all: try congruence.
  all: split;
    [ congruence
    | intros step Hs; cbn [In] in Hs;
      repeat (destruct Hs as [<-|Hs]; [cbn [Dial.position]; lia|]);
      contradiction ].
Qed.

End DialCredentials.

Lemma dial_without_peer_witness :
  Dial.dial Cases.willing "me" Examples.address1
  = ([], Dial.Failed
           (Dial.Thrown
              (InappropriateMultiaddrError
                 "we need to have the remote's PeerId"))).
Proof.
  apply (dial_without_peer string string Cases.willing "me" Examples.address1).
  left. reflexivity.
Defined.

Lemma dial_in_order_witness :
  exists n : nat,
    List.map Dial.position
      (fst (Dial.dial Cases.willing "me" Examples.address2))
    = List.firstn n [0; 1; 2; 3; 4; 5; 6; 7; 8]%nat
    /\ forall conn,
        snd (Dial.dial Cases.willing "me" Examples.address2)
        = Dial.Fulfilled conn ->
        n = 9%nat.
Proof.
  apply (dial_in_order string string Cases.willing "me" Examples.address2).
  vm_compute. reflexivity.
Defined.

Lemma dial_upgrades_after_handshake_witness :
  exists (rps : string) (cert : Transport.RTCCertificate) (them : string)
         (prologue : bytes),
    getPeerId Examples.address2 = Some rps
    /\ Dial.generateCertificate Cases.willing = Dial.Fulfilled cert
    /\ Dial.handshakeChannel Cases.willing = Dial.Opened
    /\ Dial.peerIdFromString Cases.willing rps = Dial.Fulfilled them
    /\ Transport.generateNoisePrologue
         {| Transport.getConfiguration :=
              {| Transport.certificates := Some [cert] |} |}
         Examples.address2
       = Ok prologue
    /\ Dial.secureInbound Cases.willing prologue "me" them = Dial.Fulfilled tt
    /\ In (Dial.SecureInbound prologue "me" them)
         (fst (Dial.dial Cases.willing "me" Examples.address2))
    /\ Examples.address2 = Examples.address2 /\ true = true /\ true = true
    /\ snd (Dial.dial Cases.willing "me" Examples.address2)
       = Dial.upgradeOutbound Cases.willing Examples.address2
           {| Transport.getConfiguration :=
                {| Transport.certificates := Some [cert] |} |}.
Proof.
  apply (dial_upgrades_after_handshake string string Cases.willing "me"
           Examples.address2
           (fst (Dial.dial Cases.willing "me" Examples.address2))
           (snd (Dial.dial Cases.willing "me" Examples.address2))
           Examples.address2 true true).
  - vm_compute. reflexivity.
  - vm_compute. tauto.
Defined.

Lemma dial_channel_not_opened_witness :
  (forall s,
      In s (fst (Dial.dial Cases.silent "me" Examples.address2)) ->
      (Dial.position s < 7)%nat)
  /\ exists f,
      snd (Dial.dial Cases.silent "me" Examples.address2) = Dial.Failed f
      /\ (In Dial.AwaitDataChannel
            (fst (Dial.dial Cases.silent "me" Examples.address2)) ->
          f = Dial.DataChannelFailure "data"
                "data channel was never opened: state: connecting").
Proof.
  apply (dial_channel_not_opened string string Cases.silent "me"
           Examples.address2).
  - vm_compute. reflexivity.
  - discriminate.
Defined.

Lemma dial_descriptions_share_ufrag_witness :
  exists (offer0 : Sdp.RTCSessionDescriptionInit) (body0 body1 body2 : string),
    Dial.createOffer Cases.willing = Dial.Fulfilled offer0
    /\ Sdp.sdp offer0 = Some body0
    /\ In (Dial.SetLocalDescription
             {| Sdp.type := Sdp.type offer0; Sdp.sdp := Some body1 |})
         (fst (Dial.dial Cases.willing "me" Examples.address2))
    /\ Spec.lines body1
       = Spec.mungeIceCredentials "0123456789ab4def8123456789abcdef"
           (Spec.lines body0)
    /\ {| Sdp.type := Sdp.answer;
          Sdp.sdp := Some
            (match Sdp.ma2sdp Examples.address2
                     "0123456789ab4def8123456789abcdef" with
             | Ok b => b
             | Throw _ => ""
             end) |}
       = {| Sdp.type := Sdp.answer; Sdp.sdp := Some body2 |}
    /\ Spec.attribute_lines "a=ice-ufrag:" body2
       = ["a=ice-ufrag:0123456789ab4def8123456789abcdef"]
    /\ Spec.attribute_lines "a=ice-pwd:" body2
       = ["a=ice-pwd:0123456789ab4def8123456789abcdef"].
Proof.
  apply (dial_descriptions_share_ufrag string string Cases.willing "me"
           Examples.address2
           (fst (Dial.dial Cases.willing "me" Examples.address2))
           (snd (Dial.dial Cases.willing "me" Examples.address2))).
  - vm_compute. reflexivity.
  - reflexivity.
  - reflexivity.
  - intros o Ho. vm_compute in Ho. inversion Ho. reflexivity.
  - repeat constructor.
  - vm_compute. tauto.
Defined.

(** ** The draft sdp.ts *)

(** The template has no text "/%s/": its placeholders are "%s" and "%d"
    without slashes. *)
Lemma draft_replace_finds_nothing :
  forall replacement : string,
    DraftSdp.replace "/%s/" replacement DraftSdp.SDP_FORMAT
    = DraftSdp.SDP_FORMAT.
Proof. intros replacement. reflexivity. Qed.

(** X18.  The draft's [fromMultiAddr] substitutes nothing: whenever it
    returns, the description is an offer whose text is the template as it
    stands, placeholders included, whatever the address and the ufrag; and
    it does return when the address gives host and port and has a WebRTC
    component with a value. *)
Theorem draft_fromMultiAddr_is_the_template :
  forall (ma : Multiaddr) (ufrag : string),
    (forall d,
        DraftSdp.fromMultiAddr ma ufrag = Ok d ->
        d = {| Sdp.type := Sdp.offer; Sdp.sdp := Some DraftSdp.SDP_FORMAT |})
    /\
    (forall o before c v after,
        toOptions ma = Ok o ->
        stringTuples ma
        = (before ++ (DraftSdp.P_XWEBRTC, Some (String c v)) :: after)%list ->
        (forall t, In t before -> fst t <> DraftSdp.P_XWEBRTC) ->
        DraftSdp.fromMultiAddr ma ufrag
        = Ok {| Sdp.type := Sdp.offer; Sdp.sdp := Some DraftSdp.SDP_FORMAT |}).
Proof.
  intros ma ufrag. unfold DraftSdp.fromMultiAddr, DraftSdp.ma2sdp.
  split.
  - intros d H.
    apply bind_Ok in H. destruct H as [body [H Hd]].
    apply bind_Ok in H. destruct H as [h [_ H]].
    apply bind_Ok in H. destruct H as [h' [_ H]].
    apply bind_Ok in H. destruct H as [p [_ H]].
    apply bind_Ok in H. destruct H as [c [_ H]].
    rewrite !draft_replace_finds_nothing in H.
    inversion H; subst body. inversion Hd. reflexivity.
  - intros o before c v after Ho Htups Hbefore.
    unfold DraftSdp.ip, DraftSdp.port, DraftSdp.certhash.
    rewrite Ho, Htups, filter_app, (filter_without_code _ _ Hbefore).
    cbn [bind app List.filter fst snd List.map].
    rewrite Z.eqb_refl. cbn [List.map snd].
    rewrite !draft_replace_finds_nothing. reflexivity.
Qed.

Lemma draft_fromMultiAddr_is_the_template_witness :
  DraftSdp.fromMultiAddr Cases.draft_address "0123abcd"
  = Ok {| Sdp.type := Sdp.offer; Sdp.sdp := Some DraftSdp.SDP_FORMAT |}.
Proof.
  apply (proj2 (draft_fromMultiAddr_is_the_template Cases.draft_address
                  "0123abcd")
           {| host := "1.2.3.4"; port := 1234 |}
           [(4, Some "1.2.3.4"); (273, Some "1234")]%Z
           "s"%char ("ha-256/" ++ Examples.H) []).
  - reflexivity.
  - reflexivity.
  - intros t Hin. cbn in Hin.
    repeat (destruct Hin as [<-|Hin]; [discriminate|]). contradiction.
Defined.

(** ** The draft's prologue *)

Lemma split_other :
  forall (c d : ascii) (s l : string) (ls : list string),
    Ascii.eqb d c = false ->
    DraftSdp.split c s = l :: ls ->
    DraftSdp.split c (String d s) = String d l :: ls.
Proof.
  intros c d s l ls Hd Hs. cbn [DraftSdp.split]. rewrite Hd, Hs. reflexivity.
Qed.

Lemma split_plain :
  forall (c : ascii) (a : string),
    Spec.contains c a = false -> DraftSdp.split c a = [a].
Proof.
  intros c. induction a as [|d a IH]; intros Ha; [reflexivity|].
  cbn [Spec.contains] in Ha. apply orb_false_iff in Ha. destruct Ha as [Hd Ha].
  apply split_other; [exact Hd | apply IH; exact Ha].
Qed.

Lemma split_app :
  forall (c : ascii) (a r : string),
    Spec.contains c a = false ->
    DraftSdp.split c (a ++ String c r) = a :: DraftSdp.split c r.
Proof.
  intros c. induction a as [|d a IH]; intros r Ha.
  - cbn [append DraftSdp.split]. rewrite Ascii.eqb_refl. reflexivity.
  - cbn [Spec.contains] in Ha. apply orb_false_iff in Ha. destruct Ha as [Hd Ha].
    change (String d a ++ String c r) with (String d (a ++ String c r)).
    apply split_other; [exact Hd | apply IH; exact Ha].
Qed.

Lemma split_concat :
  forall (x : string) (xs : list string),
    Forall (fun s => Spec.contains "," s = false) (x :: xs) ->
    DraftSdp.split "," (String.concat "," (x :: xs)) = x :: xs.
Proof.
  intros x xs. revert x. induction xs as [|y xs IH]; intros x H.
  - apply split_plain. inversion H; assumption.
  - inversion H as [|? ? Hx Hrest]; subst.
    rewrite concat_cons. change ("," ++ String.concat "," (y :: xs))
      with (String "," (String.concat "," (y :: xs))).
    rewrite (split_app "," x _ Hx), (IH y Hrest). reflexivity.
Qed.

Lemma decimal_no_comma :
  forall b : byte,
    Spec.contains "," (JS.Number_toString (Byte.to_N b)) = false.
Proof. destruct b; reflexivity. Qed.

Lemma decimal_decodes :
  forall b : byte,
    match NilEmpty.uint_of_string (JS.Number_toString (Byte.to_N b)) with
    | Some u => Byte.of_N (N.of_uint u)
    | None => None
    end = Some b.
Proof. destruct b; reflexivity. Qed.

Lemma decimal_injective :
  forall b b' : byte,
    JS.Number_toString (Byte.to_N b) = JS.Number_toString (Byte.to_N b') ->
    b = b'.
Proof.
  intros b b' H. pose proof (decimal_decodes b) as Hb.
  rewrite H, decimal_decodes in Hb. inversion Hb. reflexivity.
Qed.

Lemma Uint8Array_toString_injective :
  forall a b : bytes,
    Draft.Uint8Array_toString a = Draft.Uint8Array_toString b -> a = b.
Proof.
  assert (Hall : forall a : bytes,
             Forall (fun s => Spec.contains "," s = false)
               (List.map (fun b => JS.Number_toString (Byte.to_N b)) a)).
  { induction a as [|x a IH]; constructor;
      [apply decimal_no_comma | exact IH]. }
  assert (Hne : forall (x : byte) (a : bytes),
             Draft.Uint8Array_toString (x :: a) <> "").
  { intros x a. unfold Draft.Uint8Array_toString, JS.join.
    destruct a as [|y a]; cbn [List.map].
    - destruct x; discriminate.
    - rewrite concat_cons. destruct x; discriminate. }
  assert (Hmap : forall a b : bytes,
             List.map (fun x => JS.Number_toString (Byte.to_N x)) a
             = List.map (fun x => JS.Number_toString (Byte.to_N x)) b ->
             a = b).
  { induction a as [|x a IH]; intros [|y b] H; try discriminate;
      [reflexivity|].
    cbn [List.map] in H. inversion H as [[Hx Hrest]].
    rewrite (decimal_injective _ _ Hx), (IH b Hrest). reflexivity. }
  intros [|x a] [|y b] H.
  - reflexivity.
  - symmetry in H. destruct (Hne y b H).
  - destruct (Hne x a H).
  - assert (Hsplit : forall (z : byte) (zs : bytes),
               DraftSdp.split "," (Draft.Uint8Array_toString (z :: zs))
               = List.map (fun b => JS.Number_toString (Byte.to_N b))
                   (z :: zs))
      by (intros z zs; apply (split_concat _ _ (Hall (z :: zs)))).
    apply Hmap. rewrite <- !Hsplit, H. reflexivity.
Qed.

(** X19.  The draft's ordering of the two fingerprints gives both ends the
    same prologue: it does not depend on which of the two is the local
    one. *)
Theorem draft_prologue_is_symmetric :
  forall a b : bytes, Draft.prologue a b = Draft.prologue b a.
Proof.
  intros a b.
  destruct (string_dec (Draft.Uint8Array_toString a)
              (Draft.Uint8Array_toString b)) as [E|Hne].
  - apply Uint8Array_toString_injective in E. subst b. reflexivity.
  - apply draft_prologue_symmetric. exact Hne.
Qed.

Lemma dial_handshake_failure_witness :
  snd (Dial.dial Cases.refused "me" Examples.address2)
  = Dial.Failed (Dial.Rejected "handshake failed")
  /\ forall s,
      In s (fst (Dial.dial Cases.refused "me" Examples.address2)) ->
      (Dial.position s < 8)%nat.
Proof.
  apply (dial_handshake_failure string string Cases.refused "me"
           Examples.address2
           (fst (Dial.dial Cases.refused "me" Examples.address2))
           (snd (Dial.dial Cases.refused "me" Examples.address2))
           (Examples.prologue_prefix ++ Examples.F1 ++ Examples.F1)%list
           "me" Examples.ID).
  - vm_compute. reflexivity.
  - vm_compute. tauto.
  - reflexivity.
Defined.
